(** * xenforo-scraper: a shallow embedding of [xf-scraper.js]

    The script walks a XenForo forum page by page, walks every thread it
    finds page by page, and stores what it extracts through sqlite3.  The
    embedding follows the source function by function:

    - [JS]     the fragment of JavaScript's value semantics the script relies
               on (truthiness, [ToString], [parseInt], [String.split],
               [String.match] with the one regular expression of the script,
               the [Date] setters);
    - [Behaviour]  what a promise-returning call does: how it settles and the
               series-parallel structure of the I/O it causes;
    - [Scraper]    the classes [XFPage], [XFPost], [XFThread], [XFForum], their
               prototype tables as the script assigns them, and the methods;
    - [Observe]    what the properties below read off a schedule or a record;
    - [Samples]    a few small sites on which the script is run.

    Platform conventions of the model.  Strings are sequences of 8-bit code
    units.  A number is a double; the script computes with integers only, so
    [JNum n] is the double whose value is the integer [n], and the results of
    [parseInt] and [+] are rounded to the nearest double as IEEE 754
    prescribes.  A [Date] holds a time value in milliseconds since the epoch,
    UTC; the setters go through the time zone of the platform and through
    [TimeClip].  The collaborators (needle, cheerio, sqlite3, the date-string
    parser, the time zone) are a [World] of functions. *)

From Stdlib Require Import ZArith Lia List Ascii String Permutation.
From stdpp Require Import base decidable option list strings pretty gmap.

Local Open Scope string_scope.
Local Open Scope Z_scope.

(** ** JavaScript values *)

Module JS.

(** The values that flow through the script.  [JDate None] is an invalid
    date (time value [NaN]); [JDb] is the sqlite3 database handle. *)
Inductive jsval : Type :=
| JUndefined
| JNull
| JBool (b : bool)
| JNum (n : Z)
| JInf (negative : bool)
| JNaN
| JStr (s : string)
| JDate (t : option Z)
| JDb.

#[global] Instance jsval_eq_dec : EqDecision jsval.
Proof. solve_decision. Defined.

Inductive error : Type :=
| TypeError (what : string)
| RangeError (what : string)
| FetchError
| PersistError.

#[global] Instance error_eq_dec : EqDecision error.
Proof. solve_decision. Defined.

(** cheerio's [attr] gives a string or [undefined], [html] a string or
    [null]. *)
Definition of_attr (a : option string) : jsval :=
  match a with Some s => JStr s | None => JUndefined end.

Definition of_html (a : option string) : jsval :=
  match a with Some s => JStr s | None => JNull end.

(** [ToBoolean]. *)
Definition truthy (v : jsval) : bool :=
  match v with
  | JUndefined | JNull | JNaN => false
  | JBool b => b
  | JNum n => negb (n =? 0)
  | JStr s => negb (String.eqb s "")
  | JInf _ | JDate _ | JDb => true
  end.

(** *** Numbers

    Up to [2 ^ 53] in magnitude every integer is a double; the doubles of
    magnitude in [[2 ^ k, 2 ^ (k + 1))] are [2 ^ (k - 52)] apart.  The result
    of an operation is the double nearest to the exact result, the one with
    the even significand when two are as near, and an infinity from
    [2 ^ 1024] on. *)

Definition two53 : Z := 2 ^ 53.

(** The multiple of [2 ^ e] nearest to [a], ties to the even multiple. *)
Definition round_even (a e : Z) : Z :=
  let q := a / 2 ^ e in
  let r := a mod 2 ^ e in
  let half := 2 ^ (e - 1) in
  if r <? half then q * 2 ^ e
  else if half <? r then (q + 1) * 2 ^ e
  else if Z.even q then q * 2 ^ e else (q + 1) * 2 ^ e.

Definition nearest_double (z : Z) : Z :=
  if Z.abs z <=? two53 then z
  else Z.sgn z * round_even (Z.abs z) (Z.log2 (Z.abs z) - 52).

(** The number an exact integer result is delivered as. *)
Definition double_of_Z (z : Z) : jsval :=
  let d := nearest_double z in
  if 2 ^ 1024 <=? Z.abs d then JInf (d <? 0) else JNum d.

(** *** Number to string

    For a double [m] the digits are those of the shortest decimal numeral
    that reads back as [m], and among several of that length the nearest to
    [m]; integers below [10 ^ 21] are written in full, with zeros after the
    digits, larger ones with an exponent.  Up to [2 ^ 53] this is the
    decimal numeral of the integer. *)

(** With [k] significant digits for a number of [nd] digits: the multiples
    of [10 ^ (nd - k)] next to [m] that read back as [m]. *)
Definition shortest_at (m nd k : Z) : option Z :=
  let scale := 10 ^ (nd - k) in
  let lo := m / scale * scale in
  let hi := lo + scale in
  match nearest_double lo =? m, nearest_double hi =? m with
  | true, true =>
      Some (if m - lo <? hi - m then lo
            else if hi - m <? m - lo then hi
            else if Z.even (m / scale) then lo else hi)
  | true, false => Some lo
  | false, true => Some hi
  | false, false => None
  end.

(** Seventeen digits tell any two doubles apart. *)
Fixpoint shortest (m nd : Z) (tries : nat) (k : Z) : Z :=
  match tries with
  | O => m
  | S tries' =>
      match shortest_at m nd k with
      | Some v => v
      | None => shortest m nd tries' (k + 1)
      end
  end.

Fixpoint strip_trailing_zeros (s : string) : string :=
  match s with
  | String c r =>
      match strip_trailing_zeros r with
      | EmptyString => if Ascii.eqb c "0" then "" else String c ""
      | r' => String c r'
      end
  | EmptyString => ""
  end.

Definition number_to_string (n : Z) : string :=
  let m := Z.abs n in
  if m <=? two53 then pretty n
  else
    let ds := pretty (shortest m (Z.of_nat (String.length (pretty m))) 17 1) in
    let len := String.length ds in
    (if n <? 0 then "-" else "") ++
    (if (len <=? 21)%nat then ds
     else
       match strip_trailing_zeros ds with
       | String c EmptyString =>
           String c ("e+" ++ pretty (Z.of_nat len - 1))
       | String c r =>
           String c ("." ++ r ++ "e+" ++ pretty (Z.of_nat len - 1))
       | EmptyString => ds
       end).

(** [ToString], as string concatenation applies it.  For a date the text is
    the platform's; the script never concatenates one, nor the database. *)
Definition ToString (v : jsval) : string :=
  match v with
  | JUndefined => "undefined"
  | JNull => "null"
  | JBool true => "true"
  | JBool false => "false"
  | JNum n => number_to_string n
  | JInf false => "Infinity"
  | JInf true => "-Infinity"
  | JNaN => "NaN"
  | JStr s => s
  | JDate _ => "[date]"
  | JDb => "[object Object]"
  end.

(** [a || b]. *)
Definition or_else (a b : jsval) : jsval := if truthy a then a else b.

(** *** Character classes *)

Definition code (c : ascii) : N := N_of_ascii c.

Definition is_digit (c : ascii) : bool :=
  ((48 <=? code c) && (code c <=? 57))%N.

Definition digit_val (c : ascii) : Z := Z.of_N (code c) - 48.

(** [\w] is [[A-Za-z0-9_]]. *)
Definition is_word (c : ascii) : bool :=
  (((65 <=? code c) && (code c <=? 90))
   || ((97 <=? code c) && (code c <=? 122))
   || is_digit c
   || (code c =? 95))%N.

(** White space and line terminators that [parseInt] skips, among the code
    units below 256: TAB, LF, VT, FF, CR, SP, NBSP. *)
Definition is_js_space (c : ascii) : bool :=
  ((code c =? 9) || (code c =? 10) || (code c =? 11) || (code c =? 12)
   || (code c =? 13) || (code c =? 32) || (code c =? 160))%N.

Definition lower (c : ascii) : ascii :=
  if ((65 <=? code c) && (code c <=? 90))%N
  then ascii_of_N (code c + 32) else c.

(** *** [parseInt(_, 10)] *)

Fixpoint skip_space (s : string) : string :=
  match s with
  | String c s' => if is_js_space c then skip_space s' else s
  | EmptyString => s
  end.

(** The longest prefix of decimal digits. *)
Fixpoint take_digits (s : string) : string :=
  match s with
  | String c s' => if is_digit c then String c (take_digits s') else ""
  | EmptyString => ""
  end.

Fixpoint drop_digits (s : string) : string :=
  match s with
  | String c s' => if is_digit c then drop_digits s' else s
  | EmptyString => s
  end.

(** The value of a run of digits, most significant first. *)
Fixpoint digits_value (acc : Z) (s : string) : Z :=
  match s with
  | String c s' => digits_value (10 * acc + digit_val c) s'
  | EmptyString => acc
  end.

(** An optional sign: the factor and the rest. *)
Definition strip_sign (s : string) : Z * string :=
  match s with
  | String "-" r => (-1, r)
  | String "+" r => (1, r)
  | _ => (1, s)
  end.

(** The digits are read exactly and the value is rounded once. *)
Definition parseInt10_string (s : string) : jsval :=
  let '(sign, s2) := strip_sign (skip_space s) in
  match take_digits s2 with
  | EmptyString => JNaN
  | ds => double_of_Z (sign * digits_value 0 ds)
  end.

Definition parseInt10 (v : jsval) : jsval := parseInt10_string (ToString v).

(** *** [String.prototype.split] with a literal separator *)

Fixpoint strip_prefix (p s : string) : option string :=
  match p with
  | EmptyString => Some s
  | String a p' =>
      match s with
      | String b s' => if Ascii.eqb a b then strip_prefix p' s' else None
      | EmptyString => None
      end
  end.

(** [split_go sep (String.length s) s ""] cuts [s] at every occurrence of
    the (non-empty) separator, from left to right; [cur] holds the current
    piece in reverse. *)
Fixpoint split_go (sep : string) (fuel : nat) (s cur : string) : list string :=
  match fuel with
  | O => [String.rev cur]
  | S fuel' =>
      match s with
      | EmptyString => [String.rev cur]
      | String c s' =>
          match strip_prefix sep s with
          | Some rest => String.rev cur :: split_go sep fuel' rest ""
          | None => split_go sep fuel' s' (String c cur)
          end
      end
  end.

Definition split (sep s : string) : list string :=
  split_go sep (String.length s) s "".

(** Array indexing: a missing index reads [undefined]. *)
Definition index (l : list jsval) (i : nat) : jsval :=
  default JUndefined (l !! i).

(** *** The regular expression [/(\d+):(\d+) (\w+)/]

    Every quantifier is greedy and is followed by a character outside its
    class, so at a given start the only candidate is the longest run; the
    unanchored search tries the starts from left to right. *)

Fixpoint take_word (s : string) : string :=
  match s with
  | String c s' => if is_word c then String c (take_word s') else ""
  | EmptyString => ""
  end.

Definition match_time_here (s : string) : option (string * string * string) :=
  match take_digits s with
  | EmptyString => None
  | h =>
      match drop_digits s with
      | String ":" s1 =>
          match take_digits s1 with
          | EmptyString => None
          | m =>
              match drop_digits s1 with
              | String " " s2 =>
                  match take_word s2 with
                  | EmptyString => None
                  | w => Some (h, m, w)
                  end
              | _ => None
              end
          end
      | _ => None
      end
  end.

(** [s.match(/(\d+):(\d+) (\w+)/)]: the three groups of the leftmost match,
    or [None] for [null]. *)
Fixpoint match_time (s : string) : option (string * string * string) :=
  match match_time_here s with
  | Some g => Some g
  | None =>
      match s with
      | String _ s' => match_time s'
      | EmptyString => None
      end
  end.

(** [/am/i.test(w)]. *)
Fixpoint test_am (w : string) : bool :=
  match w with
  | String a ((String b _) as w') =>
      (Ascii.eqb (lower a) "a" && Ascii.eqb (lower b) "m") || test_am w'
  | _ => false
  end.

(** *** [Date] *)

Definition msPerSecond : Z := 1000.
Definition msPerMinute : Z := 60000.
Definition msPerHour : Z := 3600000.
Definition msPerDay : Z := 86400000.

Definition Day (t : Z) : Z := t / msPerDay.
Definition HourFromTime (t : Z) : Z := (t / msPerHour) mod 24.
Definition MinFromTime (t : Z) : Z := (t / msPerMinute) mod 60.
Definition SecFromTime (t : Z) : Z := (t / msPerSecond) mod 60.
Definition msFromTime (t : Z) : Z := t mod msPerSecond.

(** A finite number, [None] standing for [NaN] and the infinities: in
    [MakeTime], [MakeDate] and [TimeClip] an infinite or undefined
    intermediate result ends in [NaN]. *)
Definition finite (z : Z) : option Z :=
  match double_of_Z z with
  | JNum d => Some d
  | _ => None
  end.

(** [MakeTime(hour, min, sec, ms)], in double arithmetic from left to
    right. *)
Definition MakeTime (hour min sec ms : Z) : option Z :=
  h ← finite (hour * msPerHour);
  m ← finite (min * msPerMinute);
  hm ← finite (h + m);
  s ← finite (sec * msPerSecond);
  hms ← finite (hm + s);
  finite (hms + ms).

(** [MakeDate(day, time)]. *)
Definition MakeDate (day : Z) (time : option Z) : option Z :=
  tv ← time;
  d ← finite (day * msPerDay);
  finite (d + tv).

(** [TimeClip]: beyond 8.64e15 milliseconds from the epoch there is no
    date. *)
Definition maxTime : Z := 8640000000000000.

Definition TimeClip (t : option Z) : option Z :=
  tv ← t; if Z.abs tv <=? maxTime then Some tv else None.

(** The time zone of the platform: [LocalTime] takes a time value to local
    time, [UTC] takes a local time to a time value.  With daylight saving
    neither is a translation, and some local times are the [LocalTime] of no
    time value. *)
Record Zone : Type := {
  LocalTime : Z -> Z;
  UTC : Z -> Z
}.

(** [date.setHours(h)] and [date.setMinutes(m)] on the time value of the
    date; a [NaN] argument or an invalid date gives an invalid date. *)
Definition setHours (z : Zone) (d : option Z) (h : jsval) : option Z :=
  match d, h with
  | Some tv, JNum h =>
      let t := LocalTime z tv in
      TimeClip
        (UTC z <$>
           MakeDate (Day t)
             (MakeTime h (MinFromTime t) (SecFromTime t) (msFromTime t)))
  | _, _ => None
  end.

Definition setMinutes (z : Zone) (d : option Z) (m : jsval) : option Z :=
  match d, m with
  | Some tv, JNum m =>
      let t := LocalTime z tv in
      TimeClip
        (UTC z <$>
           MakeDate (Day t)
             (MakeTime (HourFromTime t) m (SecFromTime t) (msFromTime t)))
  | _, _ => None
  end.

(** [a + b] on numbers. *)
Definition num_add (a b : jsval) : jsval :=
  match a, b with
  | JNum x, JNum y => double_of_Z (x + y)
  | JInf s, JNum _ | JNum _, JInf s => JInf s
  | JInf s, JInf s' => if Bool.eqb s s' then JInf s else JNaN
  | _, _ => JNaN
  end.

End JS.
Export JS.

(** ** Behaviours: how a call settles, and the I/O it causes *)

Module Behaviour.

(** The four constructor functions of the script. *)
Inductive class : Type := XFPage | XFPost | XFThread | XFForum.

#[global] Instance class_eq_dec : EqDecision class.
Proof. solve_decision. Defined.

(** What the script does to the outside.  [ELog] and [EGet] record the
    receiver of the call (its constructor and its [page] field); the
    counters [forumCount], [threadCount] and [postCount] are the numbers of
    [ENew] events. *)
Inductive event : Type :=
| ELog (c : class) (url : string) (page : option Z)
    (* console.log('[%s] Archiving %s (Page %s)', ...) *)
| EGet (c : class) (page : option Z) (url : string)
    (* needle.getAsync(url, this.clientOpts) *)
| ERun (sql : string) (params : gmap string jsval)
    (* db.runAsync(sql, params) *)
| ENew (c : class)
    (* a constructor has run and incremented its counter *)
| EStats.
    (* console.log('Archived: ...') *)

#[global] Instance event_eq_dec : EqDecision event.
Proof. solve_decision. Defined.

(** How a call ends: it throws before returning, or it returns a promise
    that is fulfilled, rejected, or not settled within the steps
    considered. *)
Inductive outcome : Type :=
| Fulfilled
| Rejected (e : error)
| Thrown (e : error)
| Pending.

(** The I/O of a call, with the order the promise chains impose:
    [ASeq a b] puts all of [a] before all of [b] ([p.then(f)]), [APar a b]
    imposes nothing between [a] and [b] (the items of [BPromise.map]). *)
Inductive act : Type :=
| ANil
| AEv (e : event)
| ASeq (a b : act)
| APar (a b : act).

Fixpoint seq_all (l : list act) : act :=
  match l with
  | [] => ANil
  | a :: l' => ASeq a (seq_all l')
  end.

Fixpoint par_all (l : list act) : act :=
  match l with
  | [] => ANil
  | a :: l' => APar a (par_all l')
  end.

(** The events in program order: the schedule in which every item of a
    page completes before the next one starts. *)
Fixpoint events (a : act) : list event :=
  match a with
  | ANil => []
  | AEv e => [e]
  | ASeq a b => events a ++ events b
  | APar a b => events a ++ events b
  end.

Inductive interleave {A : Type} : list A -> list A -> list A -> Prop :=
| il_nil : interleave [] [] []
| il_left x l1 l2 l : interleave l1 l2 l -> interleave (x :: l1) l2 (x :: l)
| il_right x l1 l2 l : interleave l1 l2 l -> interleave l1 (x :: l2) (x :: l).

(** The schedules of an [act]: every order of its events that respects
    [ASeq]. *)
Inductive lin : act -> list event -> Prop :=
| lin_nil : lin ANil []
| lin_ev e : lin (AEv e) [e]
| lin_seq a b ta tb : lin a ta -> lin b tb -> lin (ASeq a b) (ta ++ tb)
| lin_par a b ta tb t :
    lin a ta -> lin b tb -> interleave ta tb t -> lin (APar a b) t.

(** [p.then(f)]: [f] runs once [p] is fulfilled; an exception thrown by
    [f] rejects the promise [then] returned.  A call that threw never
    reaches its [.then]. *)
Definition settle (r : outcome) : outcome :=
  match r with
  | Thrown e => Rejected e
  | _ => r
  end.

Definition and_then (p : outcome * act) (f : unit -> outcome * act)
  : outcome * act :=
  match fst p with
  | Fulfilled => let '(r, a) := f tt in (settle r, ASeq (snd p) a)
  | _ => p
  end.

(** The promise of [BPromise.map] over two groups of items: rejected as
    soon as one is, fulfilled when all are.  When several items reject,
    which one comes first depends on the schedule; the model reports the
    first in item order. *)
Definition both (r1 r2 : outcome) : outcome :=
  match settle r1, settle r2 with
  | Rejected e, _ => Rejected e
  | _, Rejected e => Rejected e
  | Pending, _ | _, Pending => Pending
  | _, _ => Fulfilled
  end.

(** [BPromise.map(items, mapper)]: the mapper is called on the items in
    order; each call starts that item's I/O.  If a call throws, the
    promise is rejected and the remaining items are not visited. *)
Fixpoint visit {A : Type} (mapper : A -> outcome * act) (items : list A)
  : list (outcome * act) :=
  match items with
  | [] => []
  | x :: rest =>
      let p := mapper x in
      match fst p with
      | Thrown _ => [p]
      | _ => p :: visit mapper rest
      end
  end.

Definition BPromise_map {A : Type} (mapper : A -> outcome * act)
    (items : list A) : outcome * act :=
  let visited := visit mapper items in
  (foldr both Fulfilled (fst <$> visited), par_all (snd <$> visited)).

End Behaviour.
Export Behaviour.

(** ** The scraper *)

Module Scraper.

(** *** The collaborators *)

(** What [XFThread#scrape] reads from one [.message] element. *)
Record message : Type := {
  rating_text : string;
    (* $this.find('.dark_postrating_outputlist li > strong').text() *)
  data_datestring : jsval;        (* $date.data('datestring') *)
  data_timestring : jsval;        (* $date.data('timestring') *)
  datetime_title : option string; (* $this.find('.DateTime').attr('title') *)
  permalink_href : option string; (* $this.find('datePermalink').attr('href') *)
  data_author : jsval;            (* $this.data('author') *)
  blockquote_html : option string;(* $this.find('blockquote').html() *)
  postNumber_text : string        (* $this.find('.postNumber').text() *)
}.

(** What [XFForum#scrape] reads from one [.discussionListItem .title > a]. *)
Record thread_link : Type := {
  href : option string;           (* $this.attr('href') *)
  link_text : string              (* $this.text() *)
}.

(** A parsed page, as the selectors of the script see it. *)
Record document : Type := {
  messages : list message;        (* $('.message') *)
  thread_links : list thread_link;
  pagenav_last : jsval            (* $('.PageNav').data('last') *)
}.

Record World : Type := {
  web : string -> option document;
    (* needle.getAsync then cheerio.load; None: the request fails *)
  new_Date : jsval -> option Z;
    (* new Date(x): the time value, None for an invalid date *)
  zone : Zone;
  toISOString : Z -> string;
  db_run : string -> gmap string jsval -> bool
    (* does db.runAsync(sql, params) succeed *)
}.

(** *** Objects *)

(** An instance of [XFPage] or of a constructor that inherits from it. *)
Record page_obj : Type := {
  cls : class;          (* this.constructor *)
  db : jsval;
  baseUrl : string;
  url : string;
  page : option Z;      (* None is null *)
  title : jsval
}.

Definition set_page (o : page_obj) (p : option Z) : page_obj :=
  {| cls := cls o; db := db o; baseUrl := baseUrl o; url := url o;
     page := p; title := title o |}.

(** Reading a property of a page object. *)
Definition page_prop (o : page_obj) (name : string) : jsval :=
  if String.eqb name "db" then db o
  else if String.eqb name "baseUrl" then JStr (baseUrl o)
  else if String.eqb name "url" then JStr (url o)
  else if String.eqb name "page" then
    match page o with Some p => JNum p | None => JNull end
  else if String.eqb name "title" then title o
  else JUndefined.

(** Reading a property of a plain object: [undefined] when it was never
    set. *)
Definition prop (o : gmap string jsval) (name : string) : jsval :=
  default JUndefined (o !! name).

(** *** Prototype tables *)

(** The function expressions of the script, by the line they start at. *)
Inductive method : Type :=
| fn_55_load
| fn_72_scrape
| fn_80_archive
| fn_97_archiveNextPage
| fn_107_archiveItem
| fn_117_onLoad
| fn_162_archive
| fn_183_persistData
| fn_232_archive
| fn_248_scrape
| fn_314_persistData
| fn_355_scrape.

(** The assignments [C.prototype.name = function ...], in source order. *)
Definition prototype_assignments : list (class * string * method) :=
  [ (XFPage, "load", fn_55_load);
    (XFPage, "scrape", fn_72_scrape);
    (XFPage, "archive", fn_80_archive);
    (XFPage, "_archiveNextPage", fn_97_archiveNextPage);
    (XFPage, "_archiveItem", fn_107_archiveItem);
    (XFPage, "_onLoad", fn_117_onLoad);
    (XFPost, "archive", fn_162_archive);
    (XFPost, "_persistData", fn_183_persistData);
    (XFThread, "archive", fn_232_archive);
    (XFThread, "scrape", fn_248_scrape);
    (XFPost, "_persistData", fn_314_persistData);
    (XFForum, "scrape", fn_355_scrape) ].

(** A later assignment to the same property replaces the earlier one. *)
Definition own (c : class) (name : string) : option method :=
  fold_left
    (fun acc '(c', name', m) =>
       if decide (c' = c) then
         if String.eqb name' name then Some m else acc
       else acc)
    prototype_assignments None.

(** [util.inherits(XFThread, XFPage)], [util.inherits(XFForum, XFPage)]. *)
Definition super_ (c : class) : option class :=
  match c with
  | XFThread | XFForum => Some XFPage
  | XFPage | XFPost => None
  end.

(** Property lookup along the prototype chain. *)
Definition resolve (c : class) (name : string) : option method :=
  match own c name with
  | Some m => Some m
  | None =>
      match super_ c with
      | Some s => own s name
      | None => None
      end
  end.

(** *** Constructors *)

(** [XFPage.call(this, options)]; [page_opt] is [options.page], absent at
    every call of the script. *)
Definition XFPage_new (c : class) (db : jsval) (baseUrl : string)
    (path : jsval) (page_opt : option Z) (title : jsval) : page_obj :=
  {| cls := c;
     db := db;
     baseUrl := baseUrl;
     url := baseUrl ++ ToString path;
     page := Some (match page_opt with
                   | Some p => if p =? 0 then 1 else p
                   | None => 1
                   end);
     title := title |}.

(** [new XFPost(options)]: the properties the constructor assigns. *)
Definition XFPost_new (options : gmap string jsval) : gmap string jsval :=
  list_to_map
    [ ("db", prop options "db");
      ("title", prop options "title");
      ("description", prop options "description");
      ("date", prop options "date");
      ("link", prop options "url");
      ("guid", prop options "guid");
      ("author", prop options "author");
      ("likes", prop options "likes") ].

(** *** [XFPost] *)

Definition sql_posts : string :=
  "INSERT INTO posts " ++
  "(title, description, date, link, guid, author, number, likes) " ++
  "VALUES ($title, $desc, $date, $link, $guid, $author, $num, $likes);".

Definition sql_threads : string :=
  "INSERT INTO threads (title, url) VALUES ($title, $url);".

(** [this.db.runAsync(sql, params)]. *)
Definition runAsync (W : World) (this_db : jsval) (sql : string)
    (params : gmap string jsval) : outcome * act :=
  match this_db with
  | JDb =>
      (if db_run W sql params then Fulfilled else Rejected PersistError,
       AEv (ERun sql params))
  | _ => (Thrown (TypeError "this.db.runAsync"), ANil)
  end.

(** The function assigned to [XFPost.prototype._persistData] at line 183;
    [this] is given by its property reader.  [this.db.runAsync] is looked
    up before the parameters are built. *)
Definition XFPost__persistData_183 (W : World) (this : string -> jsval)
  : outcome * act :=
  match this "db" with
  | JDb =>
      match this "date" with
      | JDate (Some t) =>
          runAsync W JDb sql_posts
            (list_to_map
               [ ("$title", this "title");
                 ("$desc", this "description");
                 ("$date", JStr (toISOString W t));
                 ("$link", this "link");
                 ("$guid", this "guid");
                 ("$author", this "author");
                 ("$num", this "number");
                 ("$likes", this "likes") ])
      | JDate None => (Thrown (RangeError "Invalid time value"), ANil)
      | _ => (Thrown (TypeError "this.date.toISOString"), ANil)
      end
  | _ => (Thrown (TypeError "this.db.runAsync"), ANil)
  end.

(** The function assigned to [XFPost.prototype._persistData] at line 314. *)
Definition XFPost__persistData_314 (W : World) (this : string -> jsval)
  : outcome * act :=
  runAsync W (this "db") sql_threads
    (list_to_map [ ("$title", this "title"); ("$url", this "url") ]).

(** [this._persistData] applied to [this], for a receiver of class [c]. *)
Definition call__persistData (W : World) (c : class) (this : string -> jsval)
  : outcome * act :=
  match resolve c "_persistData" with
  | Some fn_183_persistData => XFPost__persistData_183 W this
  | Some fn_314_persistData => XFPost__persistData_314 W this
  | _ => (Thrown (TypeError "this._persistData is not a function"), ANil)
  end.

(** [XFPost.prototype.archive]. *)
Definition XFPost_archive (W : World) (this : gmap string jsval)
  : outcome * act :=
  call__persistData W XFPost (prop this).

(** *** [XFThread#scrape]: one message *)

(** The object the first [map] callback returns. *)
Record post_data : Type := {
  permalink : jsval;
  author : jsval;
  date : option Z;
  content : jsval;
  likes : jsval;
  number : jsval
}.

(** [s.replace('#', '')]: a string pattern replaces its first occurrence. *)
Fixpoint remove_first (c : ascii) (s : string) : string :=
  match s with
  | String a s' => if Ascii.eqb a c then s' else String a (remove_first c s')
  | EmptyString => ""
  end.

(** Lines 257 to 265: the pair (date string, time string). *)
Definition raw_date (m : message) : error + list jsval :=
  if truthy (data_datestring m)
  then inr [data_datestring m; data_timestring m]
  else
    match datetime_title m with
    | Some t => inr (JStr <$> split " at " t)
    | None => inl (TypeError "Cannot call method 'split' of undefined")
    end.

(** Lines 268 to 272. *)
Definition normalize_date (W : World) (rawDate : list jsval)
  : error + option Z :=
  let date := new_Date W (index rawDate 0) in
  match index rawDate 1 with
  | JStr timePart =>
      match match_time timePart with
      | Some (h, mi, w) =>
          let date :=
            setHours (zone W) date
              (num_add (parseInt10 (JStr h))
                 (JNum (if test_am w then 0 else 12))) in
          inr (setMinutes (zone W) date (parseInt10 (JStr mi)))
      | None => inl (TypeError "Cannot read property '1' of null")
      end
  | _ => inl (TypeError "rawDate[1].match")
  end.

Definition extract_likes (m : message) : jsval :=
  parseInt10 (or_else (JStr (rating_text m)) (JNum 0)).

Definition extract_number (m : message) : jsval :=
  parseInt10 (JStr (remove_first "#" (postNumber_text m))).

(** The first [map] callback of [XFThread#scrape]. *)
Definition extract_message (W : World) (m : message) : error + post_data :=
  match raw_date m with
  | inl e => inl e
  | inr rawDate =>
      match normalize_date W rawDate with
      | inl e => inl e
      | inr d =>
          inr {| permalink := of_attr (permalink_href m);
                 author := data_author m;
                 date := d;
                 content := of_html (blockquote_html m);
                 likes := extract_likes m;
                 number := extract_number m |}
      end
  end.

(** The callback runs on the messages in order; an exception ends the
    loop and [scrape]. *)
Fixpoint extract_all (W : World) (ms : list message)
  : error + list post_data :=
  match ms with
  | [] => inr []
  | m :: ms' =>
      match extract_message W m with
      | inl e => inl e
      | inr d =>
          match extract_all W ms' with
          | inl e => inl e
          | inr ds => inr (d :: ds)
          end
      end
  end.

(** The second [map] callback: [new XFPost({...})]. *)
Definition make_post (this : page_obj) (data : post_data)
  : gmap string jsval :=
  XFPost_new
    (list_to_map
       [ ("db", db this);
         ("title", title this);
         ("url", JStr (url this));
         ("guid", JStr (baseUrl this ++ ToString (permalink data)));
         ("author", author data);
         ("date", JDate (date data));
         ("description", content data);
         ("likes", likes data);
         ("number", number data) ]).

(** [last === undefined || this.page === last ? null : this.page + 1]. *)
Definition next_page (this_page : option Z) (last : jsval) : option Z :=
  match last with
  | JUndefined => None
  | _ =>
      match this_page with
      | Some p =>
          if decide (last = JNum p) then None
          else Some (nearest_double (p + 1))
      | None => if decide (last = JNull) then None else Some 1
      end
  end.

(** *** Methods of the pages *)

Inductive item : Type :=
| ItemPost (p : gmap string jsval)
| ItemPage (o : page_obj).

Section Methods.

Variable W : World.

(** [x.archive()] on a page object, as the enclosing traversal resolves
    it. *)
Variable archive : page_obj -> outcome * act.

(** [XFPage.prototype._archiveItem]: [item.archive()]. *)
Definition XFPage__archiveItem (it : item) : outcome * act :=
  match it with
  | ItemPost p =>
      match resolve XFPost "archive" with
      | Some fn_162_archive => XFPost_archive W p
      | _ => (Thrown (TypeError "item.archive is not a function"), ANil)
      end
  | ItemPage o => archive o
  end.

(** [XFPage.prototype.scrape]. *)
Definition XFPage_scrape (this : page_obj) : outcome * page_obj * act :=
  (Fulfilled, this, ANil).

(** [XFThread.prototype.scrape]. *)
Definition XFThread_scrape (this : page_obj) (doc : document)
  : outcome * page_obj * act :=
  match extract_all W (messages doc) with
  | inl e => (Thrown e, this, ANil)
  | inr datas =>
      let posts := make_post this <$> datas in
      let this' := set_page this (next_page (page this) (pagenav_last doc)) in
      let '(r, a) := BPromise_map XFPage__archiveItem (ItemPost <$> posts) in
      (r, this', ASeq (seq_all ((fun _ => AEv (ENew XFPost)) <$> posts)) a)
  end.

(** The two [map]s of [XFForum#scrape]: [new XFThread({...})] for every
    link. *)
Definition forum_threads (this : page_obj) (doc : document)
  : list page_obj :=
  (fun l => XFPage_new XFThread (db this) (baseUrl this)
              (of_attr (href l)) None (JStr (link_text l)))
    <$> thread_links doc.

(** [XFForum.prototype.scrape]. *)
Definition XFForum_scrape (this : page_obj) (doc : document)
  : outcome * page_obj * act :=
  let threads := forum_threads this doc in
  let this' := set_page this (next_page (page this) (pagenav_last doc)) in
  let '(r, a) := BPromise_map XFPage__archiveItem (ItemPage <$> threads) in
  (r, this', ASeq (seq_all ((fun _ => AEv (ENew XFThread)) <$> threads)) a).

(** [this.scrape()]. *)
Definition call_scrape (this : page_obj) (doc : document)
  : outcome * page_obj * act :=
  match resolve (cls this) "scrape" with
  | Some fn_72_scrape => XFPage_scrape this
  | Some fn_248_scrape => XFThread_scrape this doc
  | Some fn_355_scrape => XFForum_scrape this doc
  | _ => (Thrown (TypeError "this.scrape is not a function"), this, ANil)
  end.

(** The URL [XFPage.prototype.load] requests. *)
Definition load_url (this : page_obj) : string :=
  match page this with
  | Some p =>
      if 1 <? p then url this ++ "page-" ++ ToString (JNum p) else url this
  | None => url this
  end.

(** [XFPage.prototype._onLoad]. *)
Definition XFPage__onLoad (this : page_obj) (doc : document)
  : outcome * page_obj * act :=
  call_scrape this doc.

(** [XFPage.prototype.load]:
    [needle.getAsync(url, ...).then(this._onLoad.bind(this))]. *)
Definition XFPage_load (this : page_obj) : outcome * page_obj * act :=
  let get := AEv (EGet (cls this) (page this) (load_url this)) in
  match web W (load_url this) with
  | None => (Rejected FetchError, this, get)
  | Some doc =>
      let '(r, this', a) := XFPage__onLoad this doc in
      (settle r, this', ASeq get a)
  end.

(** [XFPage.prototype._archiveNextPage]. *)
Definition XFPage__archiveNextPage (this : page_obj) : outcome * act :=
  match page this with
  | None => (Fulfilled, ANil)
  | Some _ => archive this
  end.

(** [XFPage.prototype.archive]:
    [this.load().then(this._archiveNextPage.bind(this))]. *)
Definition XFPage_archive (this : page_obj) : outcome * act :=
  let log := AEv (ELog (cls this) (url this) (page this)) in
  let '(r, this', a) := XFPage_load this in
  match r with
  | Fulfilled =>
      let '(r', a') := XFPage__archiveNextPage this' in
      (settle r', ASeq log (ASeq a a'))
  | _ => (r, ASeq log a)
  end.

(** [XFThread.prototype.archive]: the call of the inherited [archive]
    comes first, then [this._persistData.bind(this)] is evaluated, then
    [.then] is called. *)
Definition XFThread_archive (this : page_obj) : outcome * act :=
  match super_ (cls this) with
  | Some s =>
      match resolve s "archive" with
      | Some fn_80_archive =>
          let p := XFPage_archive this in
          match resolve (cls this) "_persistData" with
          | Some _ =>
              and_then p
                (fun _ => call__persistData W (cls this) (page_prop this))
          | None =>
              (Thrown (TypeError "Cannot call method 'bind' of undefined"),
               snd p)
          end
      | _ => (Thrown (TypeError "super_.prototype.archive.apply"), ANil)
      end
  | None => (Thrown (TypeError "this.constructor.super_ is undefined"), ANil)
  end.

(** The body [this.archive()] runs, by the class of [this]. *)
Definition archive_body (this : page_obj) : outcome * act :=
  match resolve (cls this) "archive" with
  | Some fn_80_archive => XFPage_archive this
  | Some fn_232_archive => XFThread_archive this
  | Some fn_162_archive => call__persistData W XFPost (page_prop this)
  | _ => (Thrown (TypeError "this.archive is not a function"), ANil)
  end.

End Methods.

(** [this.archive()], to a depth of [fuel] nested or chained [archive]
    calls; beyond it the promise is left [Pending]. *)
Fixpoint call_archive (W : World) (fuel : nat) (this : page_obj)
  : outcome * act :=
  match fuel with
  | O => (Pending, ANil)
  | S n => archive_body W (call_archive W n) this
  end.

(** *** The script *)

Definition sql_create_threads : string :=
  "CREATE TABLE IF NOT EXISTS threads(" ++
  "title TEXT NOT NULL, " ++
  "url TEXT NOT NULL " ++
  ");".

Definition sql_create_posts : string :=
  "CREATE TABLE IF NOT EXISTS posts(" ++
  "title TEXT NOT NULL, " ++
  "description TEXT NOT NULL, " ++
  "date TEXT NOT NULL, " ++
  "link TEXT NOT NULL, " ++
  "guid TEXT NOT NULL, " ++
  "author TEXT NOT NULL, " ++
  "number INTEGER NULL, " ++
  "likes TEXT NOT NULL" ++
  ");".

(** [new XFForum({baseUrl: ..., path: ..., db: db})]. *)
Definition archiver : page_obj :=
  XFPage_new XFForum JDb
    "https://forums.station.sony.com/everquestnext/"
    (JStr "index.php?forums/eqn-forum-archive-temporary.12/")
    None JUndefined.

(** Lines 389 to 422, for a forum object [root]. *)
Definition run (W : World) (fuel : nat) (root : page_obj) : outcome * act :=
  let '(r1, a1) := runAsync W JDb sql_create_threads ∅ in
  let '(r2, a2) := runAsync W JDb sql_create_posts ∅ in
  let created := (both r1 r2, ASeq (AEv (ENew XFForum)) (APar a1 a2)) in
  and_then
    (and_then created (fun _ => call_archive W fuel root))
    (fun _ => (Fulfilled, AEv EStats)).

Definition main (W : World) (fuel : nat) : outcome * act :=
  run W fuel archiver.

End Scraper.
Export Scraper.

(** ** Observations on schedules and records *)

Module Observe.

(** The [page] fields with which objects of class [c] issued requests, in
    the order of the schedule [t]. *)
Definition get_page (c : class) (e : event) : option (option Z) :=
  match e with
  | EGet c' p _ => if decide (c' = c) then Some p else None
  | _ => None
  end.

Definition fetched_pages (c : class) (t : list event) : list (option Z) :=
  omap (get_page c) t.

(** The URLs that objects of class [c] requested, in the order of [t]. *)
Definition get_url (c : class) (e : event) : option string :=
  match e with
  | EGet c' _ u => if decide (c' = c) then Some u else None
  | _ => None
  end.

Definition requested_urls (c : class) (t : list event) : list string :=
  omap (get_url c) t.

(** No two parallel parts of [a] both hold events that [f] observes: the
    observed events come in one order in every schedule. *)
Fixpoint ordered {B : Type} (f : event -> option B) (a : act) : Prop :=
  match a with
  | ANil | AEv _ => True
  | ASeq x y => ordered f x /\ ordered f y
  | APar x y =>
      ordered f x /\ ordered f y
      /\ (omap f (events x) = [] \/ omap f (events y) = [])
  end.

(** A request of an object of the class of [this] is for the URL that
    [load] makes of the URL of [this] and the page of the request. *)
Definition own_request (this : page_obj) (e : event) : Prop :=
  match e with
  | EGet c pg u => c = cls this -> u = load_url (set_page this pg)
  | _ => True
  end.

(** The items of a page: the posts of a thread page (none when a message
    cannot be read), the threads of a forum page. *)
Definition page_items (W : World) (this : page_obj) (doc : document)
  : list item :=
  match cls this with
  | XFThread =>
      match extract_all W (messages doc) with
      | inr datas => ItemPost <$> (make_post this <$> datas)
      | inl _ => []
      end
  | XFForum => ItemPage <$> forum_threads this doc
  | XFPage | XFPost => []
  end.

(** The events a thread traversal can cause: its own log lines and
    requests, the construction of posts, and the statement of the posts,
    whose [$url] is [undefined]. *)
Definition thread_event (e : event) : Prop :=
  match e with
  | ELog c _ _ | EGet c _ _ => c = XFThread
  | ENew c => c = XFPost
  | ERun sql params =>
      sql = sql_threads /\ params !! "$url" = Some JUndefined
  | EStats => False
  end.

(** [e] stores the record (title, url) of the thread [o]. *)
Definition persists_thread (o : page_obj) (e : event) : bool :=
  match e with
  | ERun sql params =>
      String.eqb sql sql_threads
      && bool_decide (params !! "$title" = Some (title o))
      && bool_decide (params !! "$url" = Some (JStr (url o)))
  | _ => false
  end.

(** The statement is an insertion into [table]. *)
Definition inserts_into (table : string) (sql : string) : bool :=
  String.prefix ("INSERT INTO " ++ table ++ " ") sql.

Definition is_run (e : event) : bool :=
  match e with ERun _ _ => true | _ => false end.

(** The time pattern in the words of the specification, [H:MM AM|PM]
    without regard to case: an hour of one or two digits, a colon, two
    digits of minutes, a space, and AM or PM. *)
Definition is_meridiem (s : string) : bool :=
  match s with
  | String a (String m EmptyString) =>
      (Ascii.eqb (lower a) "a" || Ascii.eqb (lower a) "p")
      && Ascii.eqb (lower m) "m"
  | _ => false
  end.

Definition spec_H_MM_meridiem (s : string) : bool :=
  let h := String.length (take_digits s) in
  ((1 <=? h)%nat && (h <=? 2)%nat)
  && match drop_digits s with
     | String ":" (String m1 (String m2 (String " " rest))) =>
         is_digit m1 && is_digit m2 && is_meridiem rest
     | _ => false
     end.

(** The date part of a message: [rawDate[0]]. *)
Definition date_part (m : message) : option jsval :=
  match raw_date m with
  | inr rawDate => Some (index rawDate 0)
  | inl _ => None
  end.

(** The time part of a message, when the script finds one: [rawDate[1]],
    if it is a string. *)
Definition time_part (m : message) : option string :=
  match raw_date m with
  | inr rawDate =>
      match index rawDate 1 with
      | JStr s => Some s
      | _ => None
      end
  | inl _ => None
  end.

(** The page object [this] with its cursor at page [k]. *)
Definition at_page (this : page_obj) (k : Z) : page_obj :=
  set_page this (Some k).

(** [scrape] of [doc] is fulfilled whatever the archival of nested pages
    does. *)
Definition scrape_fulfils (W : World) (this : page_obj) (doc : document)
  : Prop :=
  forall archive, fst (fst (call_scrape W archive this doc)) = Fulfilled.

(** Page [k] of [this] loads, its items are archived, and its indicator
    is there and is not [k]: the traversal goes on. *)
Definition continues (W : World) (this : page_obj) (k : Z) : Prop :=
  exists doc,
    web W (load_url (at_page this k)) = Some doc
    /\ pagenav_last doc <> JUndefined
    /\ pagenav_last doc <> JNum k
    /\ scrape_fulfils W (at_page this k) doc.

(** The URL of page [k] of [this], as the claim on request URLs has it. *)
Definition page_url (this : page_obj) (k : Z) : string :=
  if decide (k = 1) then url this
  else (url this ++ "page-" ++ pretty k)%string.




(** Page [k] of [this] loads, its items are archived, and its indicator
    ends the traversal. *)
Definition ends_at (W : World) (this : page_obj) (k : Z) : Prop :=
  exists doc,
    web W (load_url (at_page this k)) = Some doc
    /\ next_page (Some k) (pagenav_last doc) = None
    /\ scrape_fulfils W (at_page this k) doc.

(** The separator occurs somewhere in [s]. *)
Fixpoint occurs (sep s : string) : bool :=
  match strip_prefix sep s with
  | Some _ => true
  | None =>
      match s with
      | String _ s' => occurs sep s'
      | EmptyString => false
      end
  end.

(** The parameters with which the posts of the thread [this] are stored. *)
Definition thread_row (this : page_obj) : gmap string jsval :=
  list_to_map [("$title", title this); ("$url", JUndefined)].

(** The number of objects of class [c] constructed in [t]. *)
Definition constructed (c : class) (t : list event) : nat :=
  length (filter (fun e => e = ENew c) t).

End Observe.
Export Observe.

(** ** Sample pages *)

Module Samples.

Definition base : string := "https://forum.example/".

(** A message dated through the [title] attribute. *)
Definition message_at (when : string) (rating number : string) : message :=
  {| rating_text := rating;
     data_datestring := JUndefined;
     data_timestring := JUndefined;
     datetime_title := Some when;
     permalink_href := None;
     data_author := JStr "alice";
     blockquote_html := Some "<p>hello</p>";
     postNumber_text := number |}.

Definition msg_afternoon : message :=
  message_at "January 5, 2015 at 2:30 PM" "4" "#1".
Definition msg_morning : message :=
  message_at "January 5, 2015 at 11:15 AM" "" "#2".
Definition msg_noon : message :=
  message_at "January 5, 2015 at 12:30 PM" "1" "#3".
Definition msg_unrated : message :=
  message_at "January 5, 2015 at 2:30 PM" "abc" "#4".
Definition msg_odd_meridiem : message :=
  message_at "January 5, 2015 at 2:30 XM" "0" "#5".
Definition msg_no_time : message :=
  message_at "January 5, 2015 at half past two" "0" "#6".

Definition thread_page (ms : list message) (last : jsval) : document :=
  {| messages := ms; thread_links := []; pagenav_last := last |}.

Definition forum_page (ls : list thread_link) (last : jsval) : document :=
  {| messages := []; thread_links := ls; pagenav_last := last |}.

(** Midnight of 5 January 2015, UTC. *)
Definition jan5 : Z := 1420416000000.

(** The zone of the samples is UTC. *)
Definition utc : Zone := {| LocalTime := fun t => t; UTC := fun t => t |}.


Definition sample_new_Date (v : jsval) : option Z :=
  match v with
  | JStr s => if String.eqb s "January 5, 2015" then Some jan5 else None
  | _ => None
  end.

Fixpoint page_at (pages : list (string * document)) (u : string)
  : option document :=
  match pages with
  | [] => None
  | (u', d) :: rest => if String.eqb u' u then Some d else page_at rest u
  end.

(** A site given by a table from URLs to pages. *)
Definition site (pages : list (string * document)) : World :=
  {| web := page_at pages;
     new_Date := sample_new_Date;
     zone := utc;
     toISOString := fun t => pretty t;
     db_run := fun _ _ => true |}.

(** A forum of one page listing one thread of two pages. *)
Definition small_site : World :=
  site
    [ (base ++ "forums/x.12/",
       forum_page [ {| href := Some "threads/t.1/"; link_text := "T" |} ]
         JUndefined);
      (base ++ "threads/t.1/",
       thread_page [msg_afternoon; msg_morning] (JNum 2));
      (base ++ "threads/t.1/page-2",
       thread_page [msg_noon] (JNum 2)) ].

Definition small_forum : page_obj :=
  XFPage_new XFForum JDb base (JStr "forums/x.12/") None JUndefined.

Definition small_thread : page_obj :=
  XFPage_new XFThread JDb base (JStr "threads/t.1/") None (JStr "T").

(** A thread whose only page holds a message without a time. *)
Definition broken_site : World :=
  site
    [ (base ++ "threads/t.1/",
       thread_page [msg_afternoon; msg_no_time] JUndefined) ].

(** A forum of three pages that list no thread. *)
Definition empty_forum_site : World :=
  site
    [ (base ++ "forums/x.12/", forum_page [] (JNum 3));
      (base ++ "forums/x.12/page-2", forum_page [] (JNum 3));
      (base ++ "forums/x.12/page-3", forum_page [] (JNum 3)) ].

Definition first_page : document :=
  thread_page [msg_afternoon; msg_morning] (JNum 2).

(** [scrape] on the first page of the small thread, inside a traversal
    with two more steps to go. *)
Definition first_page_scrape : outcome * page_obj * act :=
  call_scrape small_site (call_archive small_site 2) small_thread first_page.

(** A forum of one page listing the thread of [broken_site]. *)
Definition broken_forum_site : World :=
  site
    [ (base ++ "forums/x.12/",
       forum_page [ {| href := Some "threads/t.1/"; link_text := "T" |} ]
         JUndefined);
      (base ++ "threads/t.1/",
       thread_page [msg_afternoon; msg_no_time] JUndefined) ].

(** The post objects [XFThread#scrape] builds on the first page of the
    small thread. *)
Definition sample_posts : list (gmap string jsval) :=
  match extract_all small_site [msg_afternoon; msg_morning] with
  | inr datas => make_post small_thread <$> datas
  | inl _ => []
  end.

Definition sample_post : gmap string jsval :=
  default ∅ (head sample_posts).

(** A forum whose pages all claim that page 0 is the last one. *)
Definition endless_site : World :=
  {| web := fun _ => Some (forum_page [] (JNum 0));
     new_Date := sample_new_Date;
     zone := utc;
     toISOString := fun t => pretty t;
     db_run := fun _ _ => true |}.

(** The three-page forum with its last page out of reach. *)
Definition truncated_forum_site : World :=
  site
    [ (base ++ "forums/x.12/", forum_page [] (JNum 3));
      (base ++ "forums/x.12/page-2", forum_page [] (JNum 3)) ].

(** The small site with a database that refuses every statement. *)
Definition refusing_site : World :=
  {| web := web small_site;
     new_Date := sample_new_Date;
     zone := utc;
     toISOString := fun t => pretty t;
     db_run := fun _ _ => false |}.

(** The small thread with its second page out of reach. *)
Definition truncated_thread_site : World :=
  site
    [ (base ++ "threads/t.1/",
       thread_page [msg_afternoon; msg_morning] (JNum 2)) ].

(** A thread whose pages all hold one post and claim that page 0 is the
    last one. *)
Definition endless_thread_site : World :=
  {| web := fun _ => Some (thread_page [msg_afternoon] (JNum 0));
     new_Date := sample_new_Date;
     zone := utc;
     db_run := fun _ _ => true;
     toISOString := fun t => pretty t |}.



(** A message dated through the two data attributes; its title is not
    read. *)
Definition msg_data : message :=
  {| rating_text := "2";
     data_datestring := JStr "January 5, 2015";
     data_timestring := JStr "9:05 PM";
     datetime_title := None;
     permalink_href := Some "posts/7/";
     data_author := JStr "bob";
     blockquote_html := None;
     postNumber_text := "#7" |}.

(** A message whose date part is not a date. *)
Definition msg_undated : message :=
  message_at "someday at 2:30 PM" "1" "#8".

(** A message whose title has no " at ". *)
Definition msg_unsplit : message :=
  message_at "Yesterday, 2:30 PM" "1" "#9".

End Samples.

(** * Properties *)

(** ** Numbers inside the exact range *)

Section Exact.

Lemma two53_value : two53 = 9007199254740992.
Proof. reflexivity. Qed.

Lemma two53_finite : two53 < 2 ^ 1024.
Proof. reflexivity. Qed.

Lemma nearest_double_exact (z : Z) :
  Z.abs z <= two53 -> nearest_double z = z.
Proof.
  intros Hz. unfold nearest_double.
  by rewrite (proj2 (Z.leb_le _ _) Hz).
Qed.

Lemma double_of_Z_exact (z : Z) :
  Z.abs z <= two53 -> double_of_Z z = JNum z.
Proof.
  intros Hz. unfold double_of_Z. rewrite nearest_double_exact by done.
  pose proof two53_finite as Hlt.
  generalize dependent (2 ^ 1024). intros big Hbig.
  by rewrite (proj2 (Z.leb_gt _ _)) by lia.
Qed.


(** Up to [2 ^ 53] a number is written as its decimal numeral. *)
Lemma ToString_exact (z : Z) :
  Z.abs z <= two53 -> ToString (JNum z) = pretty z.
Proof.
  intros Hz. unfold ToString, number_to_string.
  by rewrite (proj2 (Z.leb_le _ _) Hz).
Qed.

End Exact.

(** ** Numerals: [parseInt] reads back what number-to-string conversion
    writes *)

Section Numerals.

Lemma pretty_N_char_digit (d : N) :
  (d < 10)%N ->
  is_digit (pretty_N_char d) = true
  /\ digit_val (pretty_N_char d) = Z.of_N d
  /\ is_js_space (pretty_N_char d) = false
  /\ pretty_N_char d <> "-"%char /\ pretty_N_char d <> "+"%char.
Proof.
  intros Hd.
  assert (d = 0 \/ d = 1 \/ d = 2 \/ d = 3 \/ d = 4 \/ d = 5 \/ d = 6
          \/ d = 7 \/ d = 8 \/ d = 9)%N as Hcases by lia.
  repeat (destruct Hcases as [-> | Hcases]); try subst d;
    repeat split; try reflexivity; discriminate.
Qed.

Lemma take_digits_pretty_go (x : N) (s : string) :
  take_digits (pretty_N_go x s) = pretty_N_go x (take_digits s).
Proof.
  revert s. induction (N.lt_wf_0 x) as [x _ IH]. intros s.
  destruct (decide (x = 0%N)) as [-> | Hx].
  - by rewrite !pretty_N_go_0.
  - rewrite (pretty_N_go_step x s), (pretty_N_go_step x (take_digits s))
      by lia.
    rewrite IH by (apply N.div_lt; lia). simpl.
    destruct (pretty_N_char_digit (x `mod` 10)) as [-> _]; [|done].
    apply N.mod_lt. lia.
Qed.

Lemma digits_value_pretty_go (x : N) (s : string) :
  digits_value 0 (pretty_N_go x s) = digits_value (Z.of_N x) s.
Proof.
  revert s. induction (N.lt_wf_0 x) as [x _ IH]. intros s.
  destruct (decide (x = 0%N)) as [-> | Hx].
  - by rewrite pretty_N_go_0.
  - rewrite pretty_N_go_step by lia.
    rewrite IH by (apply N.div_lt; lia). simpl.
    destruct (pretty_N_char_digit (x `mod` 10)) as (_ & -> & _).
    { apply N.mod_lt. lia. }
    f_equal. rewrite <- (Z2N.id 10) at 1 by lia.
    rewrite <- N2Z.inj_mul, <- N2Z.inj_add. f_equal.
    change (Z.to_N 10) with 10%N.
    symmetry. apply N.div_mod. lia.
Qed.

(** A positive numeral starts with a digit. *)
Lemma pretty_go_head (x : N) (s : string) :
  (0 < x)%N ->
  exists d r, (d < 10)%N /\ pretty_N_go x s = String (pretty_N_char d) r.
Proof.
  revert s. induction (N.lt_wf_0 x) as [x _ IH]. intros s Hx.
  rewrite pretty_N_go_step by lia.
  destruct (decide (x `div` 10 = 0)%N) as [Hz | Hz].
  - rewrite Hz, pretty_N_go_0.
    exists (x `mod` 10)%N, s. split; [apply N.mod_lt; lia | done].
  - apply IH; [apply N.div_lt; lia | by apply N.neq_0_lt_0].
Qed.

Lemma parseInt10_digits_head (d : N) (r : string) :
  (d < 10)%N ->
  parseInt10_string (String (pretty_N_char d) r)
  = double_of_Z (digits_value 0 (take_digits (String (pretty_N_char d) r))).
Proof.
  intros Hd.
  assert (d = 0 \/ d = 1 \/ d = 2 \/ d = 3 \/ d = 4 \/ d = 5 \/ d = 6
          \/ d = 7 \/ d = 8 \/ d = 9)%N as Hcases by lia.
  repeat (destruct Hcases as [-> | Hcases]); try subst d;
    unfold parseInt10_string, strip_sign;
    repeat first
      [ match goal with
        | |- context [is_js_space ?c] => change (is_js_space c) with false
        | |- context [is_digit ?c] => change (is_digit c) with true
        end
      | progress cbn -[digits_value Z.mul is_js_space is_digit double_of_Z] ];
    by rewrite Z.mul_1_l.
Qed.

Lemma parseInt10_pretty_N (x : N) :
  parseInt10_string (pretty x) = double_of_Z (Z.of_N x).
Proof.
  unfold pretty, pretty_N. case_decide as Hx; [by subst|].
  destruct (pretty_go_head x "") as (d & r & Hd & Heq); [lia|].
  rewrite Heq, parseInt10_digits_head, <- Heq by done.
  by rewrite take_digits_pretty_go, digits_value_pretty_go.
Qed.

Lemma parseInt10_minus_digits_head (d : N) (r : string) :
  (d < 10)%N ->
  parseInt10_string (String "-" (String (pretty_N_char d) r))
  = double_of_Z
      (- digits_value 0 (take_digits (String (pretty_N_char d) r))).
Proof.
  intros Hd.
  assert (d = 0 \/ d = 1 \/ d = 2 \/ d = 3 \/ d = 4 \/ d = 5 \/ d = 6
          \/ d = 7 \/ d = 8 \/ d = 9)%N as Hcases by lia.
  repeat (destruct Hcases as [-> | Hcases]); try subst d;
    unfold parseInt10_string, strip_sign;
    repeat first
      [ match goal with
        | |- context [is_js_space ?c] => change (is_js_space c) with false
        | |- context [is_digit ?c] => change (is_digit c) with true
        end
      | progress cbn -[digits_value Z.mul is_js_space is_digit double_of_Z] ];
    f_equal; lia.
Qed.

(** [parseInt] of the decimal numeral of [z] is the double nearest to
    [z]. *)
Lemma parseInt10_pretty (z : Z) :
  parseInt10_string (pretty z) = double_of_Z z.
Proof.
  destruct z as [|p|p].
  - reflexivity.
  - change (pretty (Z.pos p)) with (pretty (N.pos p)).
    by rewrite parseInt10_pretty_N.
  - change (pretty (Z.neg p)) with (String "-" (pretty (N.pos p))).
    unfold pretty, pretty_N. case_decide; [done|].
    destruct (pretty_go_head (N.pos p) "") as (d & r & Hd & Heq); [lia|].
    rewrite Heq, parseInt10_minus_digits_head, <- Heq by done.
    by rewrite take_digits_pretty_go, digits_value_pretty_go.
Qed.

(** [parseInt(String(z), 10)] is [z], for [z] up to [2 ^ 53]. *)
Lemma parseInt10_pretty_exact (z : Z) :
  Z.abs z <= two53 -> parseInt10_string (pretty z) = JNum z.
Proof. intros Hz. by rewrite parseInt10_pretty, double_of_Z_exact. Qed.

End Numerals.

(** ** Requests *)

Section Requests.

Variable W : World.
Variable archive : page_obj -> outcome * act.

Lemma append_assoc (a b c : string) :
  ((a ++ b) ++ c = a ++ (b ++ c))%string.
Proof.
  induction a as [|x a IH]; [done|].
  change (String x ((a ++ b) ++ c) = String x (a ++ (b ++ c)))%string.
  by rewrite IH.
Qed.

Lemma XFPage_load_first_event (this : page_obj) :
  head (events (snd (XFPage_load W archive this)))
  = Some (EGet (cls this) (page this) (load_url this)).
Proof.
  unfold XFPage_load. destruct (web W (load_url this)) as [doc|]; [|done].
  by destruct (XFPage__onLoad W archive this doc) as [[r this'] a].
Qed.

(** The URL of [load], for a page number at which number-to-string
    conversion writes the decimal numeral. *)
Lemma load_url_page (this : page_obj) (k : Z) :
  1 <= k <= two53 ->
  load_url (set_page this (Some k)) = page_url this k.
Proof.
  intros Hk. unfold load_url, page_url. cbn [page set_page url].
  case_decide as H1.
  - by subst k.
  - rewrite (proj2 (Z.ltb_lt 1 k)) by lia.
    rewrite ToString_exact by lia. done.
Qed.

(** C10.  The URL of a page request is [baseUrl + relativePath] for page 1
    and [baseUrl + relativePath + "page-" + N], with [N] in decimal, for a
    page [N > 1] up to [2 ^ 53]; it is the URL with which [load] calls
    [needle.getAsync]. *)
Theorem C10_request_url (c : class) (d : jsval) (base rel : string)
    (start : option Z) (ttl : jsval) (N : Z) :
  N = 1 \/ 1 < N <= two53 ->
  let this := set_page (XFPage_new c d base (JStr rel) start ttl) (Some N) in
  let requested :=
    if decide (N = 1) then (base ++ rel)%string
    else (base ++ rel ++ "page-" ++ pretty N)%string in
  load_url this = requested
  /\ head (events (snd (XFPage_load W archive this)))
     = Some (EGet c (Some N) requested).
Proof.
  intros HN this requested.
  assert (load_url this = requested) as Hu.
  { unfold this. rewrite load_url_page.
    - unfold page_url, requested. cbn [url XFPage_new ToString].
      case_decide; [done|]. by rewrite append_assoc.
    - rewrite two53_value in *. lia. }
  split; [done|].
  by rewrite XFPage_load_first_event, Hu.
Qed.

End Requests.

Lemma C10_request_url_witness :
  load_url
    (set_page
       (XFPage_new XFForum JDb Samples.base (JStr "index.php?forums/x.12/")
          None JUndefined) (Some 3))
  = (Samples.base ++ "index.php?forums/x.12/" ++ "page-3")%string
  /\ load_url
       (XFPage_new XFForum JDb Samples.base (JStr "index.php?forums/x.12/")
          None JUndefined)
     = (Samples.base ++ "index.php?forums/x.12/")%string.
Proof.
  split.
  - apply (C10_request_url Samples.small_site (fun _ => (Pending, ANil))
             XFForum JDb Samples.base "index.php?forums/x.12/" None
             JUndefined 3).
    right. rewrite two53_value. lia.
  - apply (C10_request_url Samples.small_site (fun _ => (Pending, ANil))
             XFForum JDb Samples.base "index.php?forums/x.12/" None
             JUndefined 1).
    left. reflexivity.
Defined.

(** ** Likes *)

Section Digits.

Local Open Scope string_scope.

Lemma digit_char (c : ascii) :
  is_digit c = true ->
  is_js_space c = false
  /\ (forall r, strip_sign (String c r) = (1, String c r))
  /\ 0 <= digit_val c <= 9.
Proof.
  destruct c as [[] [] [] [] [] [] [] []]; vm_compute; intros H;
    try discriminate H; repeat split; intros; discriminate.
Qed.


Lemma take_digits_head (s : string) (c : ascii) (r : string) :
  take_digits s = String c r -> is_digit c = true.
Proof.
  destruct s as [|a s]; [done|]. simpl.
  destruct (is_digit a) eqn:Ha; [|done]. by intros [= <- _].
Qed.

Lemma digits_value_nonneg (s : string) (acc : Z) :
  0 <= acc -> 0 <= digits_value acc (take_digits s).
Proof.
  revert acc. induction s as [|c s IH]; intros acc Hacc; [done|]. simpl.
  destruct (is_digit c) eqn:Hc; [|done]. simpl. apply IH.
  destruct (digit_char c Hc) as (_ & _ & ?). lia.
Qed.

Lemma take_digits_app (h s : string) :
  take_digits h = h -> take_digits (h ++ s) = h ++ take_digits s.
Proof.
  induction h as [|c h IH]; [done|].
  change (String c h ++ s) with (String c (h ++ s)).
  change (String c h ++ take_digits s) with (String c (h ++ take_digits s)).
  simpl. destruct (is_digit c); [|done]. intros [= H]. by rewrite IH.
Qed.


Lemma append_empty_r (s : string) : s ++ "" = s.
Proof.
  induction s as [|c s IH]; [done|].
  change (String c s ++ "") with (String c (s ++ "")). by rewrite IH.
Qed.

(** White space before a text that does not start with white space. *)
Lemma skip_space_app (ws s : string) :
  skip_space ws = "" -> skip_space (ws ++ s) = skip_space s.
Proof.
  induction ws as [|c ws IH]; [done|].
  change (String c ws ++ s) with (String c (ws ++ s)).
  simpl. destruct (is_js_space c); [|done]. apply IH.
Qed.


(** [parseInt] of white space, a sign, a run of digits, and a rest that
    does not go on with a digit. *)
Lemma parseInt10_string_parts (ws sign ds rest : string) :
  skip_space ws = "" ->
  sign = "" \/ sign = "+" \/ sign = "-" ->
  take_digits ds = ds -> ds <> "" ->
  take_digits rest = "" ->
  parseInt10_string (ws ++ sign ++ ds ++ rest)
  = double_of_Z ((if decide (sign = "-") then -1 else 1) * digits_value 0 ds).
Proof.
  intros Hws Hsign Hds Hne Hrest.
  destruct ds as [|c r]; [done|].
  pose proof (take_digits_head _ _ _ Hds) as Hc.
  destruct (digit_char c Hc) as (Hsp & Hsg & _).
  assert (take_digits (String c r ++ rest) = String c r) as Htake
    by (by rewrite take_digits_app, Hrest, append_empty_r).
  unfold parseInt10_string. rewrite skip_space_app by done.
  destruct Hsign as [-> | [-> | ->]].
  - change ("" ++ String c r ++ rest) with (String c (r ++ rest)).
    simpl skip_space. rewrite Hsp, Hsg.
    change (String c (r ++ rest)) with (String c r ++ rest).
    rewrite Htake. by rewrite decide_False.
  - change (skip_space ("+" ++ String c r ++ rest))
      with ("+" ++ String c r ++ rest).
    change (strip_sign ("+" ++ String c r ++ rest))
      with (1, String c r ++ rest).
    cbv beta iota. rewrite Htake. by rewrite decide_False.
  - change (skip_space ("-" ++ String c r ++ rest))
      with ("-" ++ String c r ++ rest).
    change (strip_sign ("-" ++ String c r ++ rest))
      with (-1, String c r ++ rest).
    cbv beta iota. rewrite Htake. by rewrite decide_True.
Qed.




End Digits.

Lemma extract_likes_unfold (m : message) :
  extract_likes m
  = if decide (rating_text m = "") then JNum 0
    else parseInt10_string (rating_text m).
Proof.
  unfold extract_likes, or_else, truthy.
  case_decide as He.
  - by rewrite He.
  - destruct (String.eqb_spec (rating_text m) "") as [?|_]; done.
Qed.

(** C6, as the code has it.  The likes of a message are 0 when the rating
    text is empty (no rating element) and [parseInt] of the text otherwise:
    after white space and an optional sign, the run of digits that follows,
    whatever comes after it, read as a number with that sign (for a run of a
    value up to [2 ^ 53], which a number holds exactly); so the integer [z]
    when the text is the numeral of [z]; and [NaN], not 0, when no digit
    follows the white space and the sign. *)
Theorem C6_likes (m : message) :
  (rating_text m = "" -> extract_likes m = JNum 0)
  /\ (forall ws sign ds rest : string,
        rating_text m = (ws ++ sign ++ ds ++ rest)%string ->
        skip_space ws = "" ->
        sign = "" \/ sign = "+" \/ sign = "-" ->
        take_digits ds = ds -> ds <> "" ->
        take_digits rest = "" ->
        digits_value 0 ds <= two53 ->
        extract_likes m
        = JNum ((if decide (sign = "-") then -1 else 1) * digits_value 0 ds))
  /\ (forall z : Z,
        Z.abs z <= two53 ->
        rating_text m = pretty z -> extract_likes m = JNum z)
  /\ (rating_text m <> "" ->
      take_digits (snd (strip_sign (skip_space (rating_text m)))) = "" ->
      extract_likes m = JNaN).
Proof.
  rewrite extract_likes_unfold. repeat split.
  - intros He. by rewrite decide_True.
  - intros ws sign ds rest Htext Hws Hsign Hds Hne Hrest Hbound.
    pose proof (digits_value_nonneg ds 0 ltac:(done)) as Hpos.
    rewrite Hds in Hpos.
    rewrite decide_False.
    + rewrite Htext, parseInt10_string_parts by done.
      apply double_of_Z_exact. case_decide; lia.
    + rewrite Htext. destruct ws, sign, ds; done.
  - intros z Hbound Hz. rewrite Hz. case_decide as He.
    + pose proof (parseInt10_pretty_exact z Hbound) as H.
      by rewrite He in H.
    + by apply parseInt10_pretty_exact.
  - intros Hne Hnd. rewrite decide_False by done.
    unfold parseInt10_string.
    destruct (strip_sign (skip_space (rating_text m))) as [sign s2].
    cbn in Hnd. by rewrite Hnd.
Qed.

Lemma C6_likes_witness :
  extract_likes (Samples.message_at "January 5, 2015 at 2:30 PM" "" "#1")
  = JNum 0
  /\ extract_likes
       (Samples.message_at "January 5, 2015 at 2:30 PM" " -7 " "#1")
     = JNum (-7)
  /\ extract_likes
       (Samples.message_at "January 5, 2015 at 2:30 PM" "12 likes" "#1")
     = JNum 12
  /\ extract_likes (Samples.message_at "January 5, 2015 at 2:30 PM" "17" "#1")
     = JNum 17
  /\ extract_likes Samples.msg_unrated = JNaN.
Proof.
  split; [|split; [|split; [|split]]].
  - exact (proj1
             (C6_likes (Samples.message_at "January 5, 2015 at 2:30 PM" "" "#1"))
             eq_refl).
  - apply (proj1 (proj2
             (C6_likes
                (Samples.message_at "January 5, 2015 at 2:30 PM" " -7 " "#1")))
             " " "-" "7" " ");
      try reflexivity; [by right; right | discriminate | by vm_compute].
  - apply (proj1 (proj2
             (C6_likes
                (Samples.message_at "January 5, 2015 at 2:30 PM" "12 likes"
                   "#1")))
             "" "" "12" " likes");
      try reflexivity; [by left | discriminate | by vm_compute].
  - apply (proj1 (proj2 (proj2
             (C6_likes
                (Samples.message_at "January 5, 2015 at 2:30 PM" "17" "#1"))))
             17); [by vm_compute | reflexivity].
  - apply (proj2 (proj2 (proj2 (C6_likes Samples.msg_unrated))));
      [discriminate | reflexivity].
Defined.

(** C6 as the specification states it fails: a rating text that is not a
    number gives [NaN], not 0. *)
Lemma C6_counterexample :
  rating_text Samples.msg_unrated = "abc"
  /\ parseInt10_string "abc" = JNaN
  /\ extract_likes Samples.msg_unrated = JNaN
  /\ extract_likes Samples.msg_unrated <> JNum 0.
Proof. repeat split; try reflexivity. discriminate. Qed.

(** ** What a post stores *)

Lemma resolve_XFPost__persistData :
  resolve XFPost "_persistData" = Some fn_314_persistData.
Proof. reflexivity. Qed.

(** Archiving any post object runs the statement of line 316 with the two
    parameters of line 318. *)
Lemma XFPost_archive_unfold (W : World) (this : gmap string jsval) :
  XFPost_archive W this
  = runAsync W (prop this "db") sql_threads
      (list_to_map [("$title", prop this "title"); ("$url", prop this "url")]).
Proof. reflexivity. Qed.

Lemma XFPost_new_unset (options : gmap string jsval) :
  prop (XFPost_new options) "url" = JUndefined
  /\ prop (XFPost_new options) "number" = JUndefined.
Proof. split; reflexivity. Qed.

(** C2, evaluated.  Archiving the first post of the small thread runs
    [INSERT INTO threads (title, url)] with the thread title and an
    undefined url; it does not insert into [posts], and of the eight fields
    only the title is passed. *)
Theorem C2_post_goes_to_threads :
  XFPost_archive Samples.small_site Samples.sample_post
  = (Fulfilled,
     AEv (ERun sql_threads
            (list_to_map [("$title", JStr "T"); ("$url", JUndefined)])))
  /\ inserts_into "threads" sql_threads = true
  /\ inserts_into "posts" sql_threads = false
  /\ fst (XFPost__persistData_183 Samples.small_site
            (prop Samples.sample_post)) = Fulfilled
  /\ inserts_into "posts" sql_posts = true.
Proof. repeat split; vm_compute; reflexivity. Qed.

(** C5, evaluated.  The label "#1" is parsed to 1 and handed to the
    constructor, which drops it: the post object has no [number], the
    statement that is run has no such parameter, and the statement of line
    185 would bind [$num] to [undefined]. *)
Theorem C5_number_dropped :
  extract_number Samples.msg_afternoon = JNum 1
  /\ Samples.sample_post !! "number" = None
  /\ prop Samples.sample_post "number" = JUndefined
  /\ (forall sql params,
        events (snd (XFPost_archive Samples.small_site Samples.sample_post))
        = [ERun sql params] ->
        params !! "$num" = None)
  /\ (exists params,
        events (snd (XFPost__persistData_183 Samples.small_site
                       (prop Samples.sample_post)))
        = [ERun sql_posts params]
        /\ params !! "$num" = Some JUndefined).
Proof.
  split; [reflexivity|]. split; [reflexivity|]. split; [reflexivity|]. split.
  - intros sql params H. vm_compute in H. injection H as <- <-. reflexivity.
  - eexists. split; vm_compute; reflexivity.
Qed.

(** ** Dates *)

Section Calendar.












End Calendar.

Lemma extract_message_date (W : World) (m : message) (rawDate : list jsval)
    (timePart h mi w : string) :
  raw_date m = inr rawDate ->
  index rawDate 1 = JStr timePart ->
  match_time timePart = Some (h, mi, w) ->
  exists d,
    extract_message W m = inr d
    /\ date d =
       setMinutes (zone W)
         (setHours (zone W) (new_Date W (index rawDate 0))
            (num_add (parseInt10 (JStr h))
               (JNum (if test_am w then 0 else 12))))
         (parseInt10 (JStr mi)).
Proof.
  intros Hraw Htime Hmatch. unfold extract_message, normalize_date.
  rewrite Hraw, Htime, Hmatch. eauto.
Qed.





(** ** Schedules *)

Local Open Scope list_scope.

Section Schedules.

Lemma interleave_app {A : Type} (l1 l2 : list A) : interleave l1 l2 (l1 ++ l2).
Proof.
  induction l1 as [|x l1 IH]; simpl.
  - induction l2; constructor; done.
  - by constructor.
Qed.

Lemma interleave_perm {A : Type} (l1 l2 l : list A) :
  interleave l1 l2 l -> l ≡ₚ l1 ++ l2.
Proof.
  induction 1 as [|x l1 l2 l _ IH|x l1 l2 l _ IH]; simpl.
  - done.
  - by rewrite IH.
  - rewrite IH. by rewrite Permutation_middle.
Qed.

Lemma interleave_omap {A B : Type} (f : A -> option B) (l1 l2 l : list A) :
  interleave l1 l2 l ->
  (omap f l1 = [] -> omap f l = omap f l2)
  /\ (omap f l2 = [] -> omap f l = omap f l1).
Proof.
  induction 1 as [|x l1 l2 l _ [IH1 IH2]|x l1 l2 l _ [IH1 IH2]]; simpl.
  - done.
  - destruct (f x); split; try done; intros; f_equal; auto.
  - destruct (f x); split; try done; intros; f_equal; auto.
Qed.

(** The program order is a schedule. *)
Lemma lin_events (a : act) : lin a (events a).
Proof.
  induction a; simpl; try by constructor.
  econstructor; eauto using interleave_app.
Qed.

(** Every schedule has the events of the program order. *)
Lemma lin_perm (a : act) (t : list event) : lin a t -> t ≡ₚ events a.
Proof.
  induction 1 as [| |a b ta tb _ IHa _ IHb|a b ta tb t _ IHa _ IHb Hi]; simpl.
  - done.
  - done.
  - by rewrite IHa, IHb.
  - by rewrite (interleave_perm _ _ _ Hi), IHa, IHb.
Qed.

Lemma lin_Forall (P : event -> Prop) (a : act) (t : list event) :
  lin a t -> Forall P (events a) -> Forall P t.
Proof. intros Hl. by rewrite (lin_perm _ _ Hl). Qed.

(** What [f] observes of an [ordered] behaviour is the same in every
    schedule. *)
Lemma lin_ordered {B : Type} (f : event -> option B) (a : act)
    (t : list event) :
  ordered f a -> lin a t -> omap f t = omap f (events a).
Proof.
  intros Ho Hl. revert Ho.
  induction Hl as [| |a b ta tb _ IHa _ IHb|a b ta tb t Ha IHa Hb IHb Hi];
    simpl.
  - done.
  - done.
  - intros [??]. by rewrite !omap_app, IHa, IHb.
  - intros (Hoa & Hob & Hs). rewrite omap_app.
    destruct (interleave_omap f _ _ _ Hi) as [H1 H2].
    destruct Hs as [Hs|Hs]; rewrite Hs.
    + rewrite H1; [by rewrite IHb|]. by rewrite IHa.
    + rewrite H2; [by rewrite IHa, app_nil_r|]. by rewrite IHb.
Qed.

Lemma silent_ordered {B : Type} (f : event -> option B) (a : act) :
  omap f (events a) = [] -> ordered f a.
Proof.
  induction a as [| |a IHa b IHb|a IHa b IHb]; simpl; try done;
    rewrite omap_app; intros [??]%app_eq_nil; auto.
Qed.

Lemma lin_seq_inv (a b : act) (t : list event) :
  lin (ASeq a b) t -> exists ta tb, t = ta ++ tb /\ lin a ta /\ lin b tb.
Proof. inversion 1; subst; eauto. Qed.

Lemma lin_ev_inv (e : event) (t : list event) : lin (AEv e) t -> t = [e].
Proof. by inversion 1. Qed.

(** The items of a [BPromise.map] may complete in any order: the
    schedules of the items, concatenated in any order, make a schedule of
    the whole. *)
Lemma lin_par_all_concat (acts : list act) (traces : list (list event)) :
  Forall2 lin acts traces -> lin (par_all acts) (concat traces).
Proof.
  induction 1 as [|a t acts traces Ha _ IH]; simpl.
  - constructor.
  - econstructor; eauto using interleave_app.
Qed.

Lemma lin_par_all_perm (acts : list act) (traces traces' : list (list event)) :
  Forall2 lin acts traces -> traces ≡ₚ traces' ->
  lin (par_all acts) (concat traces').
Proof.
  intros H. revert traces'.
  induction H as [|a t acts traces Ha Hrest IH]; intros traces' Hp.
  - apply Permutation_nil_l in Hp. subst traces'. constructor.
  - assert (t ∈ traces') as Hin by (rewrite <- Hp; left).
    apply list_elem_of_split in Hin as (t1 & t2 & ->).
    apply Permutation_cons_app_inv in Hp.
    rewrite concat_app. simpl.
    apply (lin_par a (par_all acts) t (concat t1 ++ concat t2)).
    + done.
    + rewrite <- concat_app. by apply IH.
    + clear. induction (concat t1) as [|x l IHl]; simpl.
      * apply interleave_app.
      * by constructor.
Qed.

End Schedules.

(** ** One cycle of a traversal *)

Section Cycle.

Variable W : World.
Variable archive : page_obj -> outcome * act.

Lemma archive_body_forum (this : page_obj) :
  cls this = XFForum ->
  archive_body W archive this = XFPage_archive W archive this.
Proof. unfold archive_body. by intros ->. Qed.

(** [XFThread.prototype.archive] finds no [_persistData] on its receiver:
    it starts the inherited [archive] and throws. *)
Lemma archive_body_thread (this : page_obj) :
  cls this = XFThread ->
  archive_body W archive this
  = (Thrown (TypeError "Cannot call method 'bind' of undefined"),
     snd (XFPage_archive W archive this)).
Proof. unfold archive_body, XFThread_archive. by intros ->. Qed.

Lemma call_scrape_forum (this : page_obj) (doc : document) :
  cls this = XFForum ->
  call_scrape W archive this doc = XFForum_scrape W archive this doc.
Proof. unfold call_scrape. by intros ->. Qed.

Lemma call_scrape_thread (this : page_obj) (doc : document) :
  cls this = XFThread ->
  call_scrape W archive this doc = XFThread_scrape W archive this doc.
Proof. unfold call_scrape. by intros ->. Qed.

(** The shape of one cycle: the log line, the request, what [scrape]
    causes, and then, if [scrape] was fulfilled, the next page. *)
Lemma XFPage_archive_act (this : page_obj) :
  snd (XFPage_archive W archive this)
  = let log := AEv (ELog (cls this) (url this) (page this)) in
    let get := AEv (EGet (cls this) (page this) (load_url this)) in
    match web W (load_url this) with
    | None => ASeq log get
    | Some doc =>
        let '(r, this', a) := call_scrape W archive this doc in
        match settle r with
        | Fulfilled =>
            ASeq log
              (ASeq (ASeq get a) (snd (XFPage__archiveNextPage archive this')))
        | _ => ASeq log (ASeq get a)
        end
    end.
Proof.
  unfold XFPage_archive, XFPage_load, XFPage__onLoad.
  destruct (web W (load_url this)) as [doc|]; [|done].
  destruct (call_scrape W archive this doc) as [[r this'] a].
  destruct r; simpl; try done.
  by destruct (XFPage__archiveNextPage archive this').
Qed.

(** A request that fails ends the traversal. *)
Lemma XFPage_archive_fetch_error (this : page_obj) :
  web W (load_url this) = None ->
  XFPage_archive W archive this
  = (Rejected FetchError,
     ASeq (AEv (ELog (cls this) (url this) (page this)))
       (AEv (EGet (cls this) (page this) (load_url this)))).
Proof. unfold XFPage_archive, XFPage_load. by intros ->. Qed.

(** *** The items of a page *)

Lemma visit_Forall {A : Type} (P : act -> Prop) (mapper : A -> outcome * act)
    (items : list A) :
  (forall x, x ∈ items -> P (snd (mapper x))) ->
  Forall P (snd <$> visit mapper items).
Proof.
  induction items as [|x items IH]; intros H; simpl; [constructor|].
  assert (P (snd (mapper x))) by (apply H; left).
  destruct (fst (mapper x)); simpl; repeat constructor; try done;
    apply IH; intros; apply H; by right.
Qed.

Lemma par_all_Forall_events (P : event -> Prop) (l : list act) :
  Forall (fun a => Forall P (events a)) l -> Forall P (events (par_all l)).
Proof.
  induction 1; simpl; [constructor|]. by apply Forall_app.
Qed.

Lemma BPromise_map_events {A : Type} (P : event -> Prop)
    (mapper : A -> outcome * act) (items : list A) :
  (forall x, x ∈ items -> Forall P (events (snd (mapper x)))) ->
  Forall P (events (snd (BPromise_map mapper items))).
Proof.
  intros H. unfold BPromise_map. simpl.
  apply par_all_Forall_events.
  by apply (visit_Forall (fun a => Forall P (events a))).
Qed.

Lemma news_events (P : event -> Prop) {A : Type} (c : class) (l : list A) :
  P (ENew c) ->
  Forall P (events (seq_all ((fun _ => AEv (ENew c)) <$> l))).
Proof. intros H. induction l; simpl; by constructor. Qed.

Lemma runAsync_events (P : event -> Prop) (d : jsval) (sql : string)
    (params : gmap string jsval) :
  P (ERun sql params) -> Forall P (events (snd (runAsync W d sql params))).
Proof. intros H. destruct d; simpl; by repeat constructor. Qed.

(** Whatever the post, its archival runs the statement on [threads] with
    the post's [url], and a post has none. *)
Lemma XFPost_archive_events (P : event -> Prop) (this : page_obj)
    (data : post_data) :
  (forall params,
      params !! "$url" = Some JUndefined -> P (ERun sql_threads params)) ->
  Forall P
    (events (snd (XFPage__archiveItem W archive (ItemPost (make_post this data))))).
Proof.
  intros HP.
  change (XFPage__archiveItem W archive (ItemPost (make_post this data)))
    with (XFPost_archive W (make_post this data)).
  rewrite XFPost_archive_unfold. by apply runAsync_events, HP.
Qed.

(** [XFThread#scrape] constructs posts and archives them, nothing else. *)
Lemma XFThread_scrape_causes (P : event -> Prop) (this : page_obj)
    (doc : document) :
  P (ENew XFPost) ->
  (forall params,
      params !! "$url" = Some JUndefined -> P (ERun sql_threads params)) ->
  Forall P (events (snd (XFThread_scrape W archive this doc))).
Proof.
  intros Hnew Hrun. unfold XFThread_scrape.
  destruct (extract_all W (messages doc)) as [e|datas]; [constructor|].
  destruct (BPromise_map _ _) as [r a] eqn:Hmap. simpl.
  apply Forall_app. split.
  - by apply news_events.
  - replace a with (snd (BPromise_map (XFPage__archiveItem W archive)
                           (ItemPost <$> (make_post this <$> datas))))
      by (by rewrite Hmap).
    apply BPromise_map_events.
    intros x (p & -> & (data & -> & _)%list_elem_of_fmap)%list_elem_of_fmap.
    by apply XFPost_archive_events.
Qed.

Lemma XFThread_scrape_events (this : page_obj) (doc : document) :
  Forall thread_event (events (snd (XFThread_scrape W archive this doc))).
Proof. by apply XFThread_scrape_causes. Qed.

Lemma XFThread_scrape_state (this : page_obj) (doc : document) :
  let this' := snd (fst (XFThread_scrape W archive this doc)) in
  cls this' = cls this /\ url this' = url this
  /\ (this' = this
      \/ page this' = next_page (page this) (pagenav_last doc)).
Proof.
  unfold XFThread_scrape.
  destruct (extract_all W (messages doc)) as [e|datas]; [simpl; auto|].
  destruct (BPromise_map _ _) as [r a]. simpl. auto.
Qed.

Lemma XFForum_scrape_state (this : page_obj) (doc : document) :
  let this' := snd (fst (XFForum_scrape W archive this doc)) in
  cls this' = cls this /\ url this' = url this
  /\ page this' = next_page (page this) (pagenav_last doc).
Proof.
  unfold XFForum_scrape. destruct (BPromise_map _ _) as [r a]. simpl. auto.
Qed.

Lemma forum_threads_class (this o : page_obj) (doc : document) :
  o ∈ forum_threads this doc -> cls o = XFThread /\ page o = Some 1.
Proof.
  unfold forum_threads. by intros (l & -> & _)%list_elem_of_fmap.
Qed.

(** *** A thread causes thread events only *)

Hypothesis archive_thread_events :
  forall o, cls o = XFThread ->
    Forall thread_event (events (snd (archive o))).

Lemma XFPage_archive_thread_events (this : page_obj) :
  cls this = XFThread ->
  Forall thread_event (events (snd (XFPage_archive W archive this))).
Proof.
  intros Hc. rewrite XFPage_archive_act. cbv zeta.
  destruct (web W (load_url this)) as [doc|].
  2:{ simpl. by repeat constructor. }
  rewrite call_scrape_thread by done.
  pose proof (XFThread_scrape_events this doc) as Hev.
  destruct (XFThread_scrape_state this doc) as (Hcls & _ & _).
  destruct (XFThread_scrape W archive this doc) as [[r this'] a].
  simpl in Hev, Hcls.
  assert (Forall thread_event
            (events (snd (XFPage__archiveNextPage archive this')))) as Hnext.
  { unfold XFPage__archiveNextPage. destruct (page this'); [|constructor].
    apply archive_thread_events. congruence. }
  destruct (settle r); simpl; repeat constructor; try done;
    rewrite ?Forall_app; auto.
Qed.

End Cycle.

Lemma call_archive_thread_events (W : World) (fuel : nat) (this : page_obj) :
  cls this = XFThread ->
  Forall thread_event (events (snd (call_archive W fuel this))).
Proof.
  revert this. induction fuel as [|n IH]; intros this Hc; [constructor|].
  simpl. rewrite archive_body_thread by done. simpl.
  by apply XFPage_archive_thread_events.
Qed.

Lemma thread_events_no_record (o : page_obj) (t : list event) :
  Forall thread_event t -> Forall (fun e => persists_thread o e = false) t.
Proof.
  intros Ht. eapply Forall_impl; [exact Ht|].
  intros [] H; simpl in *; try done.
  destruct H as [_ ->]. rewrite (bool_decide_eq_false_2 (_ = Some (JStr _)));
    [|done]. by rewrite andb_false_r.
Qed.

(** ** The pages a traversal requests *)

Lemma call_archive_S_act (W : World) (n : nat) (this : page_obj) :
  cls this = XFForum \/ cls this = XFThread ->
  snd (call_archive W (S n) this)
  = snd (XFPage_archive W (call_archive W n) this).
Proof.
  intros [Hc|Hc]; simpl.
  - by rewrite archive_body_forum.
  - by rewrite archive_body_thread.
Qed.

Section Pages.

Variable W : World.
Variable archive : page_obj -> outcome * act.

Hypothesis archive_thread_events :
  forall o, cls o = XFThread ->
    Forall thread_event (events (snd (archive o))).

Lemma fetched_pages_app (c : class) (t1 t2 : list event) :
  fetched_pages c (t1 ++ t2) = fetched_pages c t1 ++ fetched_pages c t2.
Proof. apply omap_app. Qed.

Lemma fetched_pages_none (c : class) (t : list event) :
  Forall (fun e => get_page c e = None) t -> fetched_pages c t = [].
Proof.
  induction 1 as [|e t He _ IH]; [done|].
  unfold fetched_pages. cbn. by rewrite He.
Qed.

Lemma fetched_pages_get (c : class) (p : option Z) (u : string) :
  fetched_pages c [EGet c p u] = [p].
Proof. unfold fetched_pages. cbn. by rewrite decide_True. Qed.

(** What [scrape] causes holds no request of the page's own class: the
    items of a thread page are posts, those of a forum page threads. *)
Lemma call_scrape_silent (this : page_obj) (doc : document) :
  cls this = XFForum \/ cls this = XFThread ->
  Forall (fun e => get_page (cls this) e = None)
    (events (snd (call_scrape W archive this doc))).
Proof.
  intros [Hc|Hc].
  - rewrite call_scrape_forum, Hc by done. unfold XFForum_scrape.
    destruct (BPromise_map _ _) as [r a] eqn:Hmap. simpl.
    apply Forall_app. split; [by apply news_events|].
    replace a with (snd (BPromise_map (XFPage__archiveItem W archive)
                           (ItemPage <$> forum_threads this doc)))
      by (by rewrite Hmap).
    apply BPromise_map_events.
    intros x (o & -> & [Ho _]%forum_threads_class)%list_elem_of_fmap.
    simpl. eapply Forall_impl; [by apply archive_thread_events|].
    intros [c ? ?|c ? ?| | |] He; simpl in *; try done; by subst c.
  - rewrite call_scrape_thread, Hc by done.
    by apply XFThread_scrape_causes.
Qed.

(** The cursor after a fulfilled [scrape]. *)
Lemma call_scrape_cursor (this : page_obj) (doc : document) :
  cls this = XFForum \/ cls this = XFThread ->
  let '(r, this', _) := call_scrape W archive this doc in
  cls this' = cls this /\ url this' = url this
  /\ (settle r = Fulfilled ->
      page this' = next_page (page this) (pagenav_last doc)).
Proof.
  intros [Hc|Hc].
  - rewrite call_scrape_forum by done.
    pose proof (XFForum_scrape_state W archive this doc) as H.
    destruct (XFForum_scrape W archive this doc) as [[r this'] a].
    simpl in H. destruct H as (? & ? & ?). auto.
  - rewrite call_scrape_thread by done. unfold XFThread_scrape.
    destruct (extract_all W (messages doc)) as [e|datas]; [done|].
    by destruct (BPromise_map _ _) as [r a].
Qed.

Hypothesis archive_ordered :
  forall o, cls o = XFForum \/ cls o = XFThread ->
    ordered (get_page (cls o)) (snd (archive o)).

(** The requests of a traversal come one after the other: no two of them
    are in parallel parts of what the traversal does. *)
Lemma XFPage_archive_ordered (this : page_obj) :
  cls this = XFForum \/ cls this = XFThread ->
  ordered (get_page (cls this)) (snd (XFPage_archive W archive this)).
Proof.
  intros Hc. rewrite XFPage_archive_act. cbv zeta.
  destruct (web W (load_url this)) as [doc|]; [|done].
  pose proof (call_scrape_silent this doc Hc) as Hsil.
  pose proof (call_scrape_cursor this doc Hc) as Hcur.
  destruct (call_scrape W archive this doc) as [[r this'] a].
  simpl in Hsil. destruct Hcur as (Hcls & _ & _).
  assert (ordered (get_page (cls this)) a) as Hoa
    by (by apply silent_ordered, fetched_pages_none).
  destruct (settle r); try done.
  unfold XFPage__archiveNextPage. destruct (page this'); [|done].
  cbn [ordered]. repeat split; try done.
  rewrite <- Hcls. apply archive_ordered. by rewrite Hcls.
Qed.

Hypothesis archive_requests :
  forall o, cls o = XFForum \/ cls o = XFThread ->
    Forall (own_request o) (events (snd (archive o))).

Lemma own_request_same (a b : page_obj) (e : event) :
  cls a = cls b -> url a = url b -> own_request a e -> own_request b e.
Proof.
  intros Hc Hu. destruct e as [|c pg u| | |]; try done. simpl.
  intros H Hcb. rewrite H by congruence.
  unfold load_url. cbn [page set_page url]. by rewrite Hu.
Qed.

(** Every request of a traversal is for the URL of the page it names. *)
Lemma XFPage_archive_requests (this : page_obj) :
  cls this = XFForum \/ cls this = XFThread ->
  Forall (own_request this) (events (snd (XFPage_archive W archive this))).
Proof.
  intros Hc. rewrite XFPage_archive_act. cbv zeta.
  assert (own_request this (EGet (cls this) (page this) (load_url this)))
    as Hget by (by destruct this).
  destruct (web W (load_url this)) as [doc|].
  2:{ cbn [events]. by repeat constructor. }
  pose proof (call_scrape_silent this doc Hc) as Hsil.
  pose proof (call_scrape_cursor this doc Hc) as Hcur.
  destruct (call_scrape W archive this doc) as [[r this'] a].
  simpl in Hsil. destruct Hcur as (Hcls & Hurl & _).
  assert (Forall (own_request this) (events a)) as Ha.
  { eapply Forall_impl; [exact Hsil|].
    intros [|c pg u| | |]; try done. simpl. by case_decide. }
  assert (Forall (own_request this)
            (events (snd (XFPage__archiveNextPage archive this')))) as Hnext.
  { unfold XFPage__archiveNextPage. destruct (page this'); [|constructor].
    eapply Forall_impl; [apply archive_requests; by rewrite Hcls|].
    intros e. by apply own_request_same. }
  destruct (settle r); cbn [events]; repeat constructor; try done;
    rewrite ?Forall_app; auto.
Qed.

End Pages.

Lemma call_archive_ordered (W : World) (fuel : nat) (this : page_obj) :
  cls this = XFForum \/ cls this = XFThread ->
  ordered (get_page (cls this)) (snd (call_archive W fuel this)).
Proof.
  revert this. induction fuel as [|n IH]; intros this Hc; [done|].
  rewrite call_archive_S_act by done.
  apply XFPage_archive_ordered; [|done|done].
  intros o Ho. by apply call_archive_thread_events.
Qed.

Lemma call_archive_requests (W : World) (fuel : nat) (this : page_obj) :
  cls this = XFForum \/ cls this = XFThread ->
  Forall (own_request this) (events (snd (call_archive W fuel this))).
Proof.
  revert this. induction fuel as [|n IH]; intros this Hc; [constructor|].
  rewrite call_archive_S_act by done.
  apply XFPage_archive_requests; [|done|done].
  intros o Ho. by apply call_archive_thread_events.
Qed.

(** The pages a traversal requests are the same, in the same order, in
    every schedule. *)
Lemma fetched_pages_any_schedule (W : World) (fuel : nat) (this : page_obj)
    (p : Z) (t : list event) :
  cls this = XFForum \/ cls this = XFThread ->
  page this = Some p ->
  lin (snd (call_archive W fuel this)) t ->
  fetched_pages (cls this) t
  = fetched_pages (cls this) (events (snd (call_archive W fuel this))).
Proof.
  intros Hc Hp Hl. unfold fetched_pages.
  by rewrite (lin_ordered _ _ _ (call_archive_ordered W fuel this Hc) Hl).
Qed.

(** The URLs requested are those of the pages requested. *)
Lemma requested_urls_pages (this : page_obj) (t : list event) :
  Forall (own_request this) t ->
  requested_urls (cls this) t
  = (fun pg => load_url (set_page this pg)) <$> fetched_pages (cls this) t.
Proof.
  induction 1 as [|e t He _ IH]; [done|].
  unfold requested_urls, fetched_pages in *.
  destruct e as [|c pg u| | |]; cbn; try done.
  case_decide as Hc; [|done]. cbn. rewrite IH. f_equal. by apply He.
Qed.

(** ** How far a traversal goes *)

Lemma at_page_self (this : page_obj) (p : Z) :
  page this = Some p -> at_page this p = this.
Proof. destruct this. simpl. by intros ->. Qed.

Lemma settle_Fulfilled (r : outcome) : settle r = Fulfilled -> r = Fulfilled.
Proof. by destruct r. Qed.

Lemma settle_Pending (r : outcome) : settle r = Pending -> r = Pending.
Proof. by destruct r. Qed.

Lemma settle_idem (r : outcome) : settle (settle r) = settle r.
Proof. by destruct r. Qed.

Lemma next_page_cases (p : Z) (last : jsval) :
  (next_page (Some p) last = None /\ (last = JUndefined \/ last = JNum p))
  \/ (next_page (Some p) last = Some (nearest_double (p + 1))
      /\ last <> JUndefined /\ last <> JNum p).
Proof.
  unfold next_page.
  destruct last; try (right; by rewrite decide_False); [by auto|].
  case_decide as Hn; [left | right]; auto.
Qed.

(** Below [2 ^ 53] the next page is the page plus one. *)
Lemma next_page_continues (k : Z) (last : jsval) :
  last <> JUndefined -> last <> JNum k -> Z.abs (k + 1) <= two53 ->
  next_page (Some k) last = Some (k + 1).
Proof.
  intros Hu Hk Hb.
  destruct (next_page_cases k last) as [[_ [?|?]]|[-> _]]; [done..|].
  by rewrite nearest_double_exact.
Qed.

Lemma visit_ext {A : Type} (f g : A -> outcome * act) (items : list A) :
  (forall x, x ∈ items -> f x = g x) -> visit f items = visit g items.
Proof.
  induction items as [|x items IH]; intros H; [done|]. simpl.
  rewrite (H x) by left. rewrite IH by (intros; apply H; by right). done.
Qed.

Lemma both_Fulfilled (r x : outcome) :
  both r x = Fulfilled -> settle r = Fulfilled.
Proof. by destruct r, x. Qed.

Section Steps.

Variable W : World.

(** What a thread page does is the same in whatever traversal: its items
    are posts. *)
Lemma XFThread_scrape_any_archive (a1 a2 : page_obj -> outcome * act)
    (this : page_obj) (doc : document) :
  XFThread_scrape W a1 this doc = XFThread_scrape W a2 this doc.
Proof.
  unfold XFThread_scrape, BPromise_map.
  destruct (extract_all W (messages doc)) as [e|datas]; [done|].
  rewrite (visit_ext (XFPage__archiveItem W a1) (XFPage__archiveItem W a2));
    [done|].
  by intros x (p & -> & _)%list_elem_of_fmap.
Qed.

(** The archival of a thread is not fulfilled. *)
Lemma thread_archive_outcome (n : nat) (o : page_obj) :
  cls o = XFThread ->
  fst (call_archive W n o) = Pending
  \/ exists e, fst (call_archive W n o) = Thrown e.
Proof.
  intros Ho. destruct n as [|n]; [by left|right]. simpl.
  rewrite archive_body_thread by done. eauto.
Qed.

(** So a forum page is fulfilled only if it lists no thread. *)
Lemma XFForum_scrape_fulfilled (n : nat) (this : page_obj) (doc : document) :
  settle (fst (fst (XFForum_scrape W (call_archive W n) this doc)))
  = Fulfilled ->
  thread_links doc = [].
Proof.
  unfold XFForum_scrape, BPromise_map, forum_threads.
  destruct (thread_links doc) as [|l ls]; [done|].
  cbn [fmap list_fmap visit XFPage__archiveItem fst].
  set (o := XFPage_new XFThread _ _ _ _ _).
  destruct (thread_archive_outcome n o eq_refl) as [H|[e H]]; rewrite H.
  - cbn [fmap list_fmap foldr fst]. rewrite H.
    intros Hf%settle_Fulfilled%both_Fulfilled. done.
  - cbn [fmap list_fmap foldr fst]. rewrite H. done.
Qed.

Lemma scrape_fulfils_any (n : nat) (this : page_obj) (doc : document) :
  cls this = XFForum \/ cls this = XFThread ->
  settle (fst (fst (call_scrape W (call_archive W n) this doc))) = Fulfilled ->
  scrape_fulfils W this doc.
Proof.
  intros [Hc|Hc] Hf archive.
  - rewrite call_scrape_forum in * by done.
    apply XFForum_scrape_fulfilled in Hf.
    unfold XFForum_scrape, BPromise_map, forum_threads. by rewrite Hf.
  - rewrite call_scrape_thread in * by done.
    rewrite (XFThread_scrape_any_archive archive (call_archive W n)).
    by apply settle_Fulfilled.
Qed.

(** The object [scrape] leaves behind when it is fulfilled. *)
Lemma call_scrape_object (archive : page_obj -> outcome * act)
    (this this' : page_obj) (doc : document) (r : outcome) (a : act) :
  cls this = XFForum \/ cls this = XFThread ->
  call_scrape W archive this doc = (r, this', a) ->
  settle r = Fulfilled ->
  this' = set_page this (next_page (page this) (pagenav_last doc)).
Proof.
  intros [Hc|Hc] Hs Hr.
  - rewrite call_scrape_forum in Hs by done. unfold XFForum_scrape in Hs.
    destruct (BPromise_map _ _). by injection Hs as _ <- _.
  - rewrite call_scrape_thread in Hs by done. unfold XFThread_scrape in Hs.
    destruct (extract_all W (messages doc)).
    + injection Hs as <- _ _. done.
    + destruct (BPromise_map _ _). by injection Hs as _ <- _.
Qed.

(** The inherited [archive] never throws: it returns a promise. *)
Lemma XFPage_archive_not_thrown (archive : page_obj -> outcome * act)
    (this : page_obj) (e : error) :
  fst (XFPage_archive W archive this) <> Thrown e.
Proof.
  unfold XFPage_archive, XFPage_load, XFPage__onLoad.
  destruct (web W (load_url this)) as [doc|]; [|done].
  destruct (call_scrape W archive this doc) as [[r this'] a].
  destruct r; simpl; try done.
  destruct (XFPage__archiveNextPage archive this') as [[] ?]; done.
Qed.

Lemma call_archive_forum_not_thrown (fuel : nat) (this : page_obj) (e : error) :
  cls this = XFForum -> fst (call_archive W fuel this) <> Thrown e.
Proof.
  intros Hc. destruct fuel as [|n]; [done|]. simpl.
  rewrite archive_body_forum by done. apply XFPage_archive_not_thrown.
Qed.

Lemma call_archive_S_forum (n : nat) (this : page_obj) :
  cls this = XFForum ->
  call_archive W (S n) this = XFPage_archive W (call_archive W n) this.
Proof. intros Hc. simpl. by rewrite archive_body_forum. Qed.

(** The pages of a traversal, from those of the rest of it. *)
Lemma step_pages (n : nat) (this this' : page_obj) (k : Z) (doc : document)
    (r : outcome) (a : act) :
  cls this = XFForum \/ cls this = XFThread ->
  page this = Some k ->
  web W (load_url this) = Some doc ->
  call_scrape W (call_archive W n) this doc = (r, this', a) ->
  fetched_pages (cls this) (events (snd (call_archive W (S n) this)))
  = Some k
    :: match settle r, next_page (Some k) (pagenav_last doc) with
       | Fulfilled, Some q =>
           fetched_pages (cls this)
             (events (snd (call_archive W n (at_page this q))))
       | _, _ => []
       end.
Proof.
  intros Hc Hp Hweb Hs.
  pose proof (call_scrape_silent W (call_archive W n)
                (fun o Ho => call_archive_thread_events W n o Ho)
                this doc Hc) as Hsil.
  pose proof (call_scrape_object (call_archive W n) this this' doc r a Hc Hs)
    as Hobj.
  rewrite call_archive_S_act, XFPage_archive_act, Hweb, Hs by done. cbv zeta.
  rewrite Hs in Hsil. simpl in Hsil. apply fetched_pages_none in Hsil.
  destruct (settle r) eqn:Hr; cbn [events];
    rewrite ?fetched_pages_app, fetched_pages_get, Hsil, Hp; try done.
  rewrite (Hobj eq_refl), Hp. unfold XFPage__archiveNextPage, at_page.
  cbn [page set_page].
  by destruct (next_page (Some k) (pagenav_last doc)).
Qed.

(** A page that sends the traversal on. *)
Lemma step_continues (n : nat) (this : page_obj) (k : Z) :
  cls this = XFForum \/ cls this = XFThread ->
  page this = Some k ->
  Z.abs (k + 1) <= two53 ->
  continues W this k ->
  fetched_pages (cls this) (events (snd (call_archive W (S n) this)))
  = Some k
    :: fetched_pages (cls this)
         (events (snd (call_archive W n (at_page this (k + 1)))))
  /\ (cls this = XFForum ->
      fst (call_archive W (S n) this)
      = settle (fst (call_archive W n (at_page this (k + 1))))).
Proof.
  intros Hc Hp Hb (doc & Hweb & Hu & Hk & Hok).
  pose proof (next_page_continues k _ Hu Hk Hb) as Hnext.
  rewrite (at_page_self this k Hp) in Hweb, Hok.
  specialize (Hok (call_archive W n)).
  destruct (call_scrape W (call_archive W n) this doc)
    as [[r this'] a] eqn:Hs.
  simpl in Hok. subst r. split.
  - by rewrite (step_pages n this this' k doc Fulfilled a Hc Hp Hweb Hs), Hnext.
  - intros Hf. rewrite call_archive_S_forum by done.
    unfold XFPage_archive, XFPage_load, XFPage__onLoad. rewrite Hweb, Hs.
    rewrite (call_scrape_object (call_archive W n) this this' doc Fulfilled a
               Hc Hs eq_refl), Hp, Hnext.
    simpl. unfold XFPage__archiveNextPage, at_page. cbn [page set_page].
    by destruct (call_archive W n (set_page this (Some (k + 1)))).
Qed.

(** A page either sends the traversal on or is the last one requested. *)
Lemma step_cases (n : nat) (this : page_obj) (k : Z) :
  cls this = XFForum \/ cls this = XFThread ->
  page this = Some k ->
  Z.abs (k + 1) <= two53 ->
  (continues W this k
   /\ fetched_pages (cls this) (events (snd (call_archive W (S n) this)))
      = Some k
        :: fetched_pages (cls this)
             (events (snd (call_archive W n (at_page this (k + 1))))))
  \/ (~ continues W this k
      /\ fetched_pages (cls this) (events (snd (call_archive W (S n) this)))
         = [Some k]).
Proof.
  intros Hc Hp Hb.
  destruct (web W (load_url this)) as [doc|] eqn:Hweb.
  2:{ right. split.
      - intros (doc & Hw & _). rewrite (at_page_self this k Hp) in Hw.
        congruence.
      - rewrite call_archive_S_act, XFPage_archive_act, Hweb by done.
        cbn [events]. by rewrite fetched_pages_app, fetched_pages_get, Hp. }
  destruct (call_scrape W (call_archive W n) this doc)
    as [[r this'] a] eqn:Hs.
  rewrite (step_pages n this this' k doc r a Hc Hp Hweb Hs).
  assert (settle r <> Fulfilled -> ~ continues W this k) as Hnot.
  { intros Hr (doc' & Hw & _ & _ & Hok).
    rewrite (at_page_self this k Hp) in Hw, Hok.
    assert (doc' = doc) as -> by congruence.
    specialize (Hok (call_archive W n)). rewrite Hs in Hok. simpl in Hok.
    by subst r. }
  destruct (settle r) eqn:Hr; try (right; split; [by apply Hnot|done]).
  destruct (next_page_cases k (pagenav_last doc)) as [[Hn Hl]|(Hn & Hu & Hk)].
  - right. rewrite Hn. split; [|done].
    intros (doc' & Hw & Hu & Hk & _).
    rewrite (at_page_self this k Hp) in Hw.
    assert (doc' = doc) as -> by congruence. by destruct Hl.
  - left. rewrite (next_page_continues k _ Hu Hk Hb). split; [|done].
    exists doc. rewrite (at_page_self this k Hp).
    split; [done|]. split; [done|]. split; [done|].
    apply (scrape_fulfils_any n); [done|]. by rewrite Hs.
Qed.

(** A page that ends the traversal. *)
Lemma step_ends (n : nat) (this : page_obj) (k : Z) :
  cls this = XFForum \/ cls this = XFThread ->
  page this = Some k ->
  ends_at W this k ->
  fetched_pages (cls this) (events (snd (call_archive W (S n) this)))
  = [Some k]
  /\ (cls this = XFForum -> fst (call_archive W (S n) this) = Fulfilled).
Proof.
  intros Hc Hp (doc & Hweb & Hnext & Hok).
  rewrite (at_page_self this k Hp) in Hweb, Hok.
  specialize (Hok (call_archive W n)).
  destruct (call_scrape W (call_archive W n) this doc)
    as [[r this'] a] eqn:Hs.
  simpl in Hok. subst r. split.
  - by rewrite (step_pages n this this' k doc Fulfilled a Hc Hp Hweb Hs), Hnext.
  - intros Hf. rewrite call_archive_S_forum by done.
    unfold XFPage_archive, XFPage_load, XFPage__onLoad. rewrite Hweb, Hs.
    rewrite (call_scrape_object (call_archive W n) this this' doc Fulfilled a
               Hc Hs eq_refl), Hp, Hnext.
    reflexivity.
Qed.

(** A page whose request fails. *)
Lemma step_fails (n : nat) (this : page_obj) (k : Z) :
  cls this = XFForum \/ cls this = XFThread ->
  page this = Some k ->
  web W (load_url (at_page this k)) = None ->
  fetched_pages (cls this) (events (snd (call_archive W (S n) this)))
  = [Some k]
  /\ (cls this = XFForum ->
      fst (call_archive W (S n) this) = Rejected FetchError).
Proof.
  intros Hc Hp Hweb. rewrite (at_page_self this k Hp) in Hweb. split.
  - rewrite call_archive_S_act, XFPage_archive_act, Hweb by done.
    cbn [events]. rewrite fetched_pages_app, fetched_pages_get, Hp. done.
  - intros Hf. rewrite call_archive_S_forum by done.
    by rewrite XFPage_archive_fetch_error.
Qed.

(** [len] pages in a row that send the traversal on. *)
Lemma pages_run (len fuel : nat) (this : page_obj) (p : Z) :
  cls this = XFForum \/ cls this = XFThread ->
  page this = Some p ->
  1 <= p -> p + Z.of_nat len <= two53 ->
  (forall k, p <= k < p + Z.of_nat len -> continues W this k) ->
  fetched_pages (cls this) (events (snd (call_archive W (len + fuel) this)))
  = (Some <$> seqZ p (Z.of_nat len))
    ++ fetched_pages (cls this)
         (events (snd (call_archive W fuel (at_page this (p + Z.of_nat len)))))
  /\ (cls this = XFForum ->
      settle (fst (call_archive W (len + fuel) this))
      = settle (fst (call_archive W fuel
                       (at_page this (p + Z.of_nat len))))).
Proof.
  revert this p. induction len as [|len IH]; intros this p Hc Hp H1 Hb Hk.
  - rewrite Z.add_0_r, (at_page_self this p Hp). done.
  - destruct (step_continues (len + fuel) this p Hc Hp) as [Hpages Hout].
    { lia. }
    { apply Hk. lia. }
    destruct (IH (at_page this (p + 1)) (p + 1)) as [IHpages IHout];
      [done|done|lia|lia|..].
    { intros k Hr. destruct (Hk k) as (doc & ? & ? & ? & ?); [lia|].
      by exists doc. }
    change (S len + fuel)%nat with (S (len + fuel)).
    replace (p + Z.of_nat (S len)) with (p + 1 + Z.of_nat len) by lia.
    split.
    + rewrite Hpages. change (cls this) with (cls (at_page this (p + 1))).
      rewrite IHpages. rewrite (seqZ_cons p) by lia.
      replace (Z.pred (Z.of_nat (S len))) with (Z.of_nat len) by lia.
      done.
    + intros Hf. rewrite (Hout Hf), settle_idem. by apply IHout.
Qed.

(** The pages a traversal requests: one after the other from its page,
    each sent on by the one before, up to the first that does not send it
    on. *)
Lemma call_archive_pages (fuel : nat) (this : page_obj) (p : Z) :
  cls this = XFForum \/ cls this = XFThread ->
  page this = Some p ->
  1 <= p -> p + Z.of_nat fuel <= two53 ->
  exists len : nat,
    (len <= fuel)%nat
    /\ fetched_pages (cls this) (events (snd (call_archive W fuel this)))
       = Some <$> seqZ p (Z.of_nat len)
    /\ (forall k, p <= k < p + Z.of_nat len - 1 -> continues W this k)
    /\ ((0 < fuel)%nat -> (0 < len)%nat)
    /\ ((0 < len < fuel)%nat -> ~ continues W this (p + Z.of_nat len - 1)).
Proof.
  revert this p. induction fuel as [|n IH]; intros this p Hc Hp H1 Hb.
  - exists 0%nat. repeat split; try done; lia.
  - destruct (step_cases n this p Hc Hp) as [[Hgo Hpages]|[Hstop Hpages]].
    { lia. }
    + destruct (IH (at_page this (p + 1)) (p + 1))
        as (len & Hlen & IHpages & IHgo & IHpos & IHstop);
        [done|done|lia|lia|].
      change (cls (at_page this (p + 1))) with (cls this) in IHpages.
      exists (S len). split; [lia|]. split.
      { rewrite Hpages, IHpages, (seqZ_cons p) by lia.
        by replace (Z.pred (Z.of_nat (S len))) with (Z.of_nat len) by lia. }
      split.
      { intros k Hk. destruct (decide (k = p)) as [->|Hne]; [done|].
        destruct (IHgo k) as (doc & ? & ? & ? & ?); [lia|]. by exists doc. }
      split; [lia|].
      intros Hl (doc & Hw & Hu & Hk & Hok).
      apply IHstop; [lia|].
      replace (p + 1 + Z.of_nat len - 1) with (p + Z.of_nat (S len) - 1)
        by lia.
      by exists doc.
    + exists 1%nat. split; [lia|]. split; [by rewrite Hpages|].
      split; [intros k Hk; lia|]. split; [lia|].
      intros _. by replace (p + Z.of_nat 1 - 1) with p by lia.
Qed.

End Steps.

Section Urls.

Local Open Scope string_scope.

Lemma append_inj_r (a b c : string) : a ++ b = a ++ c -> b = c.
Proof.
  induction a as [|x a IH]; [done|].
  change (String x a ++ b) with (String x (a ++ b)).
  change (String x a ++ c) with (String x (a ++ c)).
  intros [= H]. by apply IH.
Qed.

(** From page 1 on, different pages have different URLs. *)
Lemma page_url_inj (this : page_obj) (j k : Z) :
  page_url this j = page_url this k -> j = k.
Proof.
  unfold page_url. do 2 case_decide; subst; try done.
  - rewrite <- (append_empty_r (url this)) at 1.
    by intros Heq%append_inj_r.
  - rewrite <- (append_empty_r (url this)) at 2.
    by intros Heq%append_inj_r.
  - intros Heq%append_inj_r%append_inj_r. by apply (inj pretty).
Qed.

End Urls.

(** C8.  A traversal starts at the page it is constructed with, 1 when
    none (or 0) is given; for a start page [p] from 1 on, and as long as
    page numbers stay below [2 ^ 53], in every schedule the pages requested
    are [p], [p + 1], ..., each at the URL of its number and no URL twice.
    The sequence is as long as the cursor allows: every requested page but
    the last one loaded, had its items archived and showed an indicator
    other than its own number, and the last one did not, unless the steps
    considered end there. *)
Theorem C8_page_sequence (W : World) (fuel : nat) (c : class) (d : jsval)
    (base : string) (path : jsval) (start : option Z) (ttl : jsval)
    (t : list event) :
  c = XFForum \/ c = XFThread ->
  let this := XFPage_new c d base path start ttl in
  let p := match start with
           | Some q => if decide (q = 0) then 1 else q
           | None => 1
           end in
  1 <= p -> p + Z.of_nat fuel <= two53 ->
  lin (snd (call_archive W fuel this)) t ->
  exists len : nat,
    (len <= fuel)%nat
    /\ fetched_pages c t = Some <$> seqZ p (Z.of_nat len)
    /\ requested_urls c t = page_url this <$> seqZ p (Z.of_nat len)
    /\ NoDup (requested_urls c t)
    /\ (forall k, p <= k < p + Z.of_nat len - 1 -> continues W this k)
    /\ ((0 < fuel)%nat -> (0 < len)%nat)
    /\ ((0 < len < fuel)%nat -> ~ continues W this (p + Z.of_nat len - 1)).
Proof.
  intros Hc this p H1 Hb Hl.
  assert (cls this = XFForum \/ cls this = XFThread) as Hc' by done.
  assert (page this = Some p) as Hp.
  { unfold this, p. cbn. destruct start as [q|]; [|done].
    case_decide as Hq; [by rewrite Hq|].
    by rewrite (proj2 (Z.eqb_neq q 0)). }
  destruct (call_archive_pages W fuel this p Hc' Hp H1 Hb)
    as (len & Hlen & Hpages & Hgo & Hpos & Hstop).
  rewrite <- (fetched_pages_any_schedule W fuel this p t Hc' Hp Hl) in Hpages.
  change (cls this) with c in Hpages.
  assert (requested_urls c t = page_url this <$> seqZ p (Z.of_nat len))
    as Hurls.
  { change c with (cls this).
    rewrite requested_urls_pages
      by (eapply lin_Forall; [exact Hl|by apply call_archive_requests]).
    change (cls this) with c. rewrite Hpages, <- list_fmap_compose.
    apply Forall_fmap_ext, Forall_seqZ. intros k Hk. unfold compose.
    apply load_url_page. lia. }
  exists len. repeat split; try done.
  rewrite Hurls. apply NoDup_fmap_2_strong; [|apply NoDup_seqZ].
  intros j k _ _. apply page_url_inj.
Qed.

(** The three-page forum without threads, and the two-page thread with its
    three posts. *)
Lemma C8_page_sequence_witness :
  (exists len : nat,
      (len <= 5)%nat
      /\ fetched_pages XFForum
           (events (snd (call_archive Samples.empty_forum_site 5
                           Samples.small_forum)))
         = Some <$> seqZ 1 (Z.of_nat len))
  /\ (exists len : nat,
        (len <= 5)%nat
        /\ fetched_pages XFThread
             (events (snd (call_archive Samples.small_site 5
                             Samples.small_thread)))
           = Some <$> seqZ 1 (Z.of_nat len)).
Proof.
  split.
  - destruct (C8_page_sequence Samples.empty_forum_site 5 XFForum JDb
                Samples.base (JStr "forums/x.12/") None JUndefined
                (events (snd (call_archive Samples.empty_forum_site 5
                                Samples.small_forum))))
      as (len & Hlen & Hpages & _);
      [by left | lia | by vm_compute | apply lin_events |].
    by exists len.
  - destruct (C8_page_sequence Samples.small_site 5 XFThread JDb
                Samples.base (JStr "threads/t.1/") None (JStr "T")
                (events (snd (call_archive Samples.small_site 5
                                Samples.small_thread))))
      as (len & Hlen & Hpages & _);
      [by right | lia | by vm_compute | apply lin_events |].
    by exists len.
Defined.

(** The requests of the three-page forum and of the two-page thread. *)
Example empty_forum_pages :
  fetched_pages XFForum
    (events (snd (call_archive Samples.empty_forum_site 5 Samples.small_forum)))
  = [Some 1; Some 2; Some 3].
Proof. vm_compute. reflexivity. Qed.

Example small_thread_pages :
  fetched_pages XFThread
    (events (snd (call_archive Samples.small_site 5 Samples.small_thread)))
  = [Some 1; Some 2].
Proof. vm_compute. reflexivity. Qed.

(** Past [2 ^ 53] the cursor does not move: adding one to the page leaves
    it where it is, and the same page is requested again. *)
Example page_past_exact_range :
  next_page (Some two53) (JNum 0) = Some two53
  /\ fetched_pages XFForum
       (events (snd (call_archive Samples.endless_site 3
                       (set_page Samples.small_forum (Some two53)))))
     = [Some two53; Some two53; Some two53].
Proof. split; vm_compute; reflexivity. Qed.

(** ** The end of a traversal *)

(** C3.  When the page has no last-page indicator, or the indicator is the
    current page number, the next cursor is [null]; with a [null] cursor
    [_archiveNextPage] resolves without calling [archive]; so in every
    schedule this page is the only one the traversal requests. *)
Theorem C3_terminal_cursor (W : World) (fuel : nat) (this : page_obj) (p : Z)
    (doc : document) (t : list event) :
  cls this = XFForum \/ cls this = XFThread ->
  page this = Some p ->
  web W (load_url this) = Some doc ->
  pagenav_last doc = JUndefined \/ pagenav_last doc = JNum p ->
  lin (snd (call_archive W (S fuel) this)) t ->
  next_page (Some p) (pagenav_last doc) = None
  /\ (forall r this' a,
        call_scrape W (call_archive W fuel) this doc = (r, this', a) ->
        settle r = Fulfilled -> page this' = None)
  /\ (forall this',
        page this' = None ->
        XFPage__archiveNextPage (call_archive W fuel) this' = (Fulfilled, ANil))
  /\ fetched_pages (cls this) t = [Some p].
Proof.
  intros Hc Hp Hweb Hlast Hl.
  assert (next_page (Some p) (pagenav_last doc) = None) as Hnext.
  { destruct (next_page_cases p (pagenav_last doc)) as [[? _]|(_ & ? & ?)];
      [done|]. by destruct Hlast. }
  assert (forall r this' a,
             call_scrape W (call_archive W fuel) this doc = (r, this', a) ->
             settle r = Fulfilled -> page this' = None) as Hcur.
  { intros r this' a Hs Hr.
    pose proof (call_scrape_cursor W (call_archive W fuel) this doc Hc) as H.
    rewrite Hs in H. destruct H as (_ & _ & H). rewrite (H Hr), Hp. done. }
  split; [done|]. split; [done|]. split.
  { intros this' Hnone. unfold XFPage__archiveNextPage. by rewrite Hnone. }
  pose proof (call_archive_ordered W (S fuel) this Hc) as Ho.
  unfold fetched_pages. rewrite (lin_ordered _ _ _ Ho Hl).
  rewrite call_archive_S_act, XFPage_archive_act, Hweb by done. cbv zeta.
  pose proof (call_scrape_silent W (call_archive W fuel)
                (fun o Ho => call_archive_thread_events W fuel o Ho)
                this doc Hc) as Hsil.
  destruct (call_scrape W (call_archive W fuel) this doc)
    as [[r this'] a] eqn:Hs.
  simpl in Hsil. apply fetched_pages_none in Hsil.
  destruct (settle r) eqn:Hr; cbn [events];
    change (omap (get_page (cls this))) with (fetched_pages (cls this));
    rewrite ?fetched_pages_app, fetched_pages_get, Hsil, Hp; try done.
  unfold XFPage__archiveNextPage. by rewrite (Hcur r this' a eq_refl Hr).
Qed.

Lemma C3_terminal_cursor_witness :
  fetched_pages XFForum
    (events
       (snd (call_archive Samples.small_site 5 Samples.small_forum)))
  = [Some 1]
  /\ fetched_pages XFThread
       (events
          (snd (call_archive Samples.small_site 5
                  (set_page Samples.small_thread (Some 2)))))
     = [Some 2].
Proof.
  split.
  - apply (C3_terminal_cursor Samples.small_site 4 Samples.small_forum 1
             (Samples.forum_page
                [ {| href := Some "threads/t.1/"; link_text := "T" |} ]
                JUndefined)).
    + left. reflexivity.
    + reflexivity.
    + reflexivity.
    + left. reflexivity.
    + apply lin_events.
  - apply (C3_terminal_cursor Samples.small_site 4
             (set_page Samples.small_thread (Some 2)) 2
             (Samples.thread_page [Samples.msg_noon] (JNum 2))).
    + right. reflexivity.
    + reflexivity.
    + reflexivity.
    + right. reflexivity.
    + apply lin_events.
Defined.

(** ** The posts of a thread page *)

Section Posts.

Variable W : World.
Variable archive : page_obj -> outcome * act.

Lemma extract_all_length (ms : list message) (datas : list post_data) :
  extract_all W ms = inr datas -> length datas = length ms.
Proof.
  revert datas. induction ms as [|m ms IH]; intros datas; simpl.
  - by intros [= <-].
  - destruct (extract_message W m); [done|].
    destruct (extract_all W ms) as [|ds]; [done|].
    intros [= <-]. simpl. f_equal. by apply IH.
Qed.

(** Every post of a thread is archived by the same statement with the same
    parameters: the title of the thread and no url. *)
Lemma XFPost_archive_row (this : page_obj) (data : post_data) :
  XFPage__archiveItem W archive (ItemPost (make_post this data))
  = runAsync W (db this) sql_threads (thread_row this).
Proof.
  change (XFPage__archiveItem W archive (ItemPost (make_post this data)))
    with (XFPost_archive W (make_post this data)).
  rewrite XFPost_archive_unfold. reflexivity.
Qed.

Lemma visit_const {A : Type} (mapper : A -> outcome * act) (items : list A)
    (r0 : outcome) (a0 : act) :
  (forall x, x ∈ items -> mapper x = (r0, a0)) ->
  (forall e, r0 <> Thrown e) ->
  visit mapper items = replicate (length items) (r0, a0).
Proof.
  intros Hm Hr. induction items as [|x items IH]; [done|]. simpl.
  rewrite (Hm x) by left. simpl.
  rewrite IH by (intros; apply Hm; by right).
  destruct r0; try done. by destruct (Hr e).
Qed.

Lemma foldr_both_replicate (n : nat) (r0 : outcome) :
  r0 = Fulfilled \/ r0 = Rejected PersistError ->
  foldr both Fulfilled (replicate n r0)
  = match n with O => Fulfilled | S _ => r0 end.
Proof.
  intros Hr. induction n as [|n IH]; [done|]. simpl. rewrite IH.
  destruct n, Hr as [-> | ->]; done.
Qed.

Lemma events_par_replicate (n : nat) (e : event) :
  events (par_all (replicate n (AEv e))) = replicate n e.
Proof. induction n as [|n IH]; [done|]. simpl. by rewrite IH. Qed.

Lemma events_news {A : Type} (e : event) (l : list A) :
  events (seq_all ((fun _ => AEv e) <$> l)) = replicate (length l) e.
Proof.
  induction l as [|x l IH]; [done|].
  cbn [fmap list_fmap seq_all events length replicate].
  change (list_fmap A act (fun _ => AEv e) l) with ((fun _ => AEv e) <$> l).
  by rewrite IH.
Qed.

(** [scrape] on a thread page whose messages can all be read: the posts
    are constructed one after the other, then their statements, all the
    same, are run side by side. *)
Lemma XFThread_scrape_readable_act (this : page_obj) (doc : document)
    (datas : list post_data) :
  db this = JDb ->
  extract_all W (messages doc) = inr datas ->
  let n := length (messages doc) in
  let written := db_run W sql_threads (thread_row this) in
  XFThread_scrape W archive this doc
  = (match n with
     | O => Fulfilled
     | S _ => if written then Fulfilled else Rejected PersistError
     end,
     set_page this (next_page (page this) (pagenav_last doc)),
     ASeq (seq_all ((fun _ => AEv (ENew XFPost)) <$> (make_post this <$> datas)))
       (par_all (replicate n (AEv (ERun sql_threads (thread_row this)))))).
Proof.
  intros Hdb Hall n written. unfold XFThread_scrape, BPromise_map.
  rewrite Hall. cbn [fst snd].
  rewrite (visit_const _ _
             (if written then Fulfilled else Rejected PersistError)
             (AEv (ERun sql_threads (thread_row this)))).
  2:{ intros x (p & -> & (d & -> & _)%list_elem_of_fmap)%list_elem_of_fmap.
      rewrite XFPost_archive_row, Hdb. reflexivity. }
  2:{ intros e. unfold written. by destruct (db_run _ _ _). }
  rewrite !length_fmap, (extract_all_length _ _ Hall). fold n.
  rewrite !fmap_replicate. cbn [fst snd].
  rewrite foldr_both_replicate by (destruct written; auto). done.
Qed.

(** What [scrape] does on a thread page whose messages can all be read. *)
Lemma XFThread_scrape_readable (this : page_obj) (doc : document)
    (datas : list post_data) :
  db this = JDb ->
  extract_all W (messages doc) = inr datas ->
  let n := length (messages doc) in
  let written := db_run W sql_threads (thread_row this) in
  fst (fst (XFThread_scrape W archive this doc))
  = match n with
    | O => Fulfilled
    | S _ => if written then Fulfilled else Rejected PersistError
    end
  /\ snd (fst (XFThread_scrape W archive this doc))
     = set_page this (next_page (page this) (pagenav_last doc))
  /\ events (snd (XFThread_scrape W archive this doc))
     = replicate n (ENew XFPost)
       ++ replicate n (ERun sql_threads (thread_row this)).
Proof.
  intros Hdb Hall n written.
  rewrite (XFThread_scrape_readable_act this doc datas Hdb Hall).
  cbn [fst snd events]. split; [done|]. split; [done|].
  rewrite events_par_replicate, events_news. f_equal.
  by rewrite !length_fmap, (extract_all_length _ _ Hall).
Qed.


End Posts.


(** ** The order inside a cycle *)

Section Order.

Variable W : World.



End Order.



(** ** A time that cannot be read *)

Lemma extract_all_fails (W : World) (ms : list message) (m : message)
    (e0 : error) :
  m ∈ ms -> extract_message W m = inl e0 ->
  exists e m', extract_all W ms = inl e /\ m' ∈ ms
               /\ extract_message W m' = inl e.
Proof.
  induction ms as [|m1 ms IH]; intros Hin He0.
  - by apply elem_of_nil in Hin.
  - simpl. destruct (extract_message W m1) as [e1|d1] eqn:H1.
    + exists e1, m1. split; [done|]. split; [left|done].
    + apply elem_of_cons in Hin as [->|Hin]; [congruence|].
      destruct (IH Hin He0) as (e & m' & -> & Hm' & He).
      exists e, m'. split; [done|]. split; [by right|done].
Qed.

(** C9, as the code has it.  When the time part of a message holds no match
    of the pattern of the script, reading the message throws a [TypeError];
    nothing catches it: [scrape] throws before any post is constructed or
    stored and before the cursor moves, the promise of the page cycle is
    rejected with the error of the first message that cannot be read, and
    the cycle requests no further page. *)
Theorem C9_unread_time_rejects_page (W : World)
    (archive : page_obj -> outcome * act) (this : page_obj) (doc : document)
    (m : message) (timePart : string) :
  cls this = XFThread ->
  web W (load_url this) = Some doc ->
  m ∈ messages doc ->
  time_part m = Some timePart ->
  match_time timePart = None ->
  extract_message W m = inl (TypeError "Cannot read property '1' of null")
  /\ exists e m',
       m' ∈ messages doc /\ extract_message W m' = inl e
       /\ XFThread_scrape W archive this doc = (Thrown e, this, ANil)
       /\ XFPage_archive W archive this
          = (Rejected e,
             ASeq (AEv (ELog XFThread (url this) (page this)))
               (ASeq (AEv (EGet XFThread (page this) (load_url this))) ANil)).
Proof.
  intros Hc Hweb Hin Htime Hmatch.
  assert (extract_message W m
          = inl (TypeError "Cannot read property '1' of null")) as Hm.
  { unfold time_part in Htime. unfold extract_message, normalize_date.
    destruct (raw_date m) as [|rawDate]; [done|].
    destruct (index rawDate 1); try done.
    injection Htime as ->. by rewrite Hmatch. }
  split; [done|].
  destruct (extract_all_fails W (messages doc) m _ Hin Hm)
    as (e & m' & Hall & Hin' & He).
  exists e, m'. split; [done|]. split; [done|].
  assert (XFThread_scrape W archive this doc = (Thrown e, this, ANil)) as Hs.
  { unfold XFThread_scrape. by rewrite Hall. }
  split; [done|].
  unfold XFPage_archive, XFPage_load, XFPage__onLoad.
  rewrite Hweb, call_scrape_thread, Hs, Hc by done. reflexivity.
Qed.

Lemma C9_unread_time_rejects_page_witness :
  extract_message Samples.broken_site Samples.msg_no_time
  = inl (TypeError "Cannot read property '1' of null")
  /\ exists e m',
       m' ∈ [Samples.msg_afternoon; Samples.msg_no_time]
       /\ extract_message Samples.broken_site m' = inl e
       /\ XFThread_scrape Samples.broken_site
            (call_archive Samples.broken_site 2) Samples.small_thread
            (Samples.thread_page [Samples.msg_afternoon; Samples.msg_no_time]
               JUndefined)
          = (Thrown e, Samples.small_thread, ANil)
       /\ XFPage_archive Samples.broken_site
            (call_archive Samples.broken_site 2) Samples.small_thread
          = (Rejected e,
             ASeq (AEv (ELog XFThread (url Samples.small_thread) (Some 1)))
               (ASeq (AEv (EGet XFThread (Some 1)
                             (load_url Samples.small_thread))) ANil)).
Proof.
  apply (C9_unread_time_rejects_page Samples.broken_site
           (call_archive Samples.broken_site 2) Samples.small_thread
           (Samples.thread_page [Samples.msg_afternoon; Samples.msg_no_time]
              JUndefined)
           Samples.msg_no_time "half past two").
  - reflexivity.
  - reflexivity.
  - right. left.
  - reflexivity.
  - reflexivity.
Defined.

(** C9 as the specification states it fails: "2:30 XM" is not of the form
    [H:MM AM|PM], yet the script reads it, as 14:30, and no error arises. *)
Lemma C9_counterexample :
  time_part Samples.msg_odd_meridiem = Some "2:30 XM"
  /\ spec_H_MM_meridiem "2:30 XM" = false
  /\ match_time "2:30 XM" = Some ("2", "30", "XM")
  /\ (exists d t,
        extract_message Samples.small_site Samples.msg_odd_meridiem = inr d
        /\ date d = Some t /\ HourFromTime t = 14 /\ MinFromTime t = 30)
  /\ fst (fst (XFThread_scrape Samples.small_site
                 (call_archive Samples.small_site 2) Samples.small_thread
                 (Samples.thread_page [Samples.msg_odd_meridiem] JUndefined)))
     = Fulfilled.
Proof.
  repeat split; try reflexivity.
  eexists _, _. repeat split; reflexivity.
Qed.

(** The error of an unread time does not reach the caller of the thread's
    [archive]: that call has thrown already, for want of [_persistData], and
    the run is rejected with that other error. *)
Remark unread_time_is_orphaned :
  fst (XFPage_archive Samples.broken_site (call_archive Samples.broken_site 2)
         Samples.small_thread)
  = Rejected (TypeError "Cannot read property '1' of null")
  /\ fst (call_archive Samples.broken_site 3 Samples.small_thread)
     = Thrown (TypeError "Cannot call method 'bind' of undefined")
  /\ fst (run Samples.broken_forum_site 4 Samples.small_forum)
     = Rejected (TypeError "Cannot call method 'bind' of undefined").
Proof. repeat split; vm_compute; reflexivity. Qed.

(** ** The record of a thread *)

Lemma resolve_XFThread__persistData :
  resolve XFThread "_persistData" = None.
Proof. reflexivity. Qed.

(** No thread traversal returns: whatever the site and the thread, the call
    throws, and no schedule of what it started holds a statement that
    stores the thread's record. *)
Lemma thread_archive_throws (W : World) (fuel : nat) (this : page_obj)
    (t : list event) :
  cls this = XFThread ->
  lin (snd (call_archive W (S fuel) this)) t ->
  fst (call_archive W (S fuel) this)
  = Thrown (TypeError "Cannot call method 'bind' of undefined")
  /\ Forall (fun e => persists_thread this e = false) t.
Proof.
  intros Hc Hl. split.
  - simpl. by rewrite archive_body_thread.
  - apply thread_events_no_record. eapply lin_Forall; [done|].
    by apply call_archive_thread_events.
Qed.

(** C1, evaluated.  The traversal of the small thread requests both pages
    and archives the three posts, then the call of [archive] has thrown: the
    prototype chain of a thread holds no [_persistData].  The record of the
    thread is stored zero times; the three statements that ran are those of
    the posts, with an undefined url. *)
Theorem C1_thread_record_not_persisted :
  resolve XFThread "_persistData" = None
  /\ own XFPost "_persistData" = Some fn_314_persistData
  /\ fst (call_archive Samples.small_site 5 Samples.small_thread)
     = Thrown (TypeError "Cannot call method 'bind' of undefined")
  /\ (let t := events (snd (call_archive Samples.small_site 5
                              Samples.small_thread)) in
      fetched_pages XFThread t = [Some 1; Some 2]
      /\ length (filter (fun e => is_run e = true) t) = 3%nat
      /\ filter (fun e => persists_thread Samples.small_thread e = true) t = []).
Proof. repeat split; vm_compute; reflexivity. Qed.

(** * Further properties of the script *)

(** ** The statistics line *)

Section Causes.

Variable W : World.
Variable P : event -> Prop.

Hypothesis P_log : forall c u p, P (ELog c u p).
Hypothesis P_get : forall c p u, P (EGet c p u).
Hypothesis P_run : forall sql params, P (ERun sql params).
Hypothesis P_new : forall c, P (ENew c).

Lemma call_scrape_causes (archive : page_obj -> outcome * act)
    (this : page_obj) (doc : document) :
  (forall o, Forall P (events (snd (archive o)))) ->
  Forall P (events (snd (call_scrape W archive this doc))).
Proof.
  intros Harch. destruct (cls this) eqn:Hc.
  - unfold call_scrape. rewrite Hc. constructor.
  - unfold call_scrape. rewrite Hc. constructor.
  - rewrite call_scrape_thread by done. by apply XFThread_scrape_causes.
  - rewrite call_scrape_forum by done. unfold XFForum_scrape.
    destruct (BPromise_map _ _) as [r a] eqn:Hmap. simpl.
    apply Forall_app. split; [by apply news_events|].
    replace a with (snd (BPromise_map (XFPage__archiveItem W archive)
                           (ItemPage <$> forum_threads this doc)))
      by (by rewrite Hmap).
    apply BPromise_map_events.
    intros x (o & -> & _)%list_elem_of_fmap. apply Harch.
Qed.

Lemma XFPage_archive_causes (archive : page_obj -> outcome * act)
    (this : page_obj) :
  (forall o, Forall P (events (snd (archive o)))) ->
  Forall P (events (snd (XFPage_archive W archive this))).
Proof.
  intros Harch. rewrite XFPage_archive_act. cbv zeta.
  destruct (web W (load_url this)) as [doc|].
  2:{ simpl. by repeat constructor. }
  pose proof (call_scrape_causes archive this doc Harch) as Hs.
  destruct (call_scrape W archive this doc) as [[r this'] a]. simpl in Hs.
  assert (Forall P (events (snd (XFPage__archiveNextPage archive this'))))
    as Hnext.
  { unfold XFPage__archiveNextPage. destruct (page this'); [|constructor].
    apply Harch. }
  destruct (settle r); simpl; repeat constructor; try done;
    rewrite ?Forall_app; auto.
Qed.

(** A traversal logs, requests, constructs and stores; it does nothing
    else. *)
Lemma call_archive_causes (fuel : nat) (this : page_obj) :
  Forall P (events (snd (call_archive W fuel this))).
Proof.
  revert this. induction fuel as [|n IH]; intros this; [constructor|].
  simpl. unfold archive_body.
  destruct (cls this) eqn:Hc; simpl.
  - by apply XFPage_archive_causes.
  - by apply runAsync_events.
  - unfold XFThread_archive. rewrite Hc. simpl.
    by apply XFPage_archive_causes.
  - by apply XFPage_archive_causes.
Qed.

End Causes.

Lemma call_archive_no_stats (W : World) (fuel : nat) (this : page_obj) :
  EStats ∉ events (snd (call_archive W fuel this)).
Proof.
  intros Hin.
  pose proof (call_archive_causes W (fun e => e <> EStats)) as H.
  eapply Forall_forall in H; [by apply H| | | | |exact Hin]; done.
Qed.

Lemma runAsync_no_stats (W : World) (d : jsval) (sql : string)
    (params : gmap string jsval) :
  EStats ∉ events (snd (runAsync W d sql params)).
Proof.
  intros Hin.
  pose proof (runAsync_events W (fun e => e <> EStats) d sql params) as H.
  eapply Forall_forall in H; [by apply H|done|exact Hin].
Qed.

(** X1.  The statistics line is logged exactly when the run is fulfilled,
    and then it is the last thing the run does, in every schedule. *)
Theorem X1_stats_iff_fulfilled (W : World) (fuel : nat) (root : page_obj)
    (t : list event) :
  lin (snd (run W fuel root)) t ->
  (EStats ∈ t <-> fst (run W fuel root) = Fulfilled)
  /\ (fst (run W fuel root) = Fulfilled ->
      exists t', t = t' ++ [EStats] /\ EStats ∉ t').
Proof.
  unfold run.
  pose proof (runAsync_no_stats W JDb sql_create_threads ∅) as H1.
  pose proof (runAsync_no_stats W JDb sql_create_posts ∅) as H2.
  destruct (runAsync W JDb sql_create_threads ∅) as [r1 a1].
  destruct (runAsync W JDb sql_create_posts ∅) as [r2 a2]. simpl in H1, H2.
  pose proof (call_archive_no_stats W fuel root) as H3.
  destruct (call_archive W fuel root) as [r a]. simpl in H3.
  assert (EStats ∉ events (ASeq (AEv (ENew XFForum)) (APar a1 a2))) as Hc.
  { simpl. rewrite elem_of_cons, elem_of_app. intuition discriminate. }
  unfold and_then at 2. cbn [fst snd].
  destruct (both r1 r2) eqn:Hb.
  - unfold and_then. cbn [fst snd].
    destruct (settle r) eqn:Hr; cbn [fst snd].
    + intros Hl.
      apply lin_seq_inv in Hl as (t' & ts & -> & Hl & ->%lin_ev_inv).
      assert (EStats ∉ t') as Hno.
      { rewrite (lin_perm _ _ Hl). cbn [events].
        rewrite elem_of_app. intuition discriminate. }
      split; [|eauto]. split; [done|]. intros _.
      rewrite elem_of_app, list_elem_of_singleton. auto.
    + intros Hl. split; [|done]. split; [|done].
      rewrite (lin_perm _ _ Hl). cbn [events]. rewrite elem_of_app.
      intuition discriminate.
    + intros Hl. by destruct r.
    + intros Hl. split; [|done]. split; [|done].
      rewrite (lin_perm _ _ Hl). cbn [events]. rewrite elem_of_app.
      intuition discriminate.
  - unfold and_then. cbn [fst snd]. intros Hl. split; [|done].
    split; [|done]. by rewrite (lin_perm _ _ Hl).
  - unfold both in Hb. by destruct (settle r1), (settle r2).
  - unfold and_then. cbn [fst snd]. intros Hl. split; [|done].
    split; [|done]. by rewrite (lin_perm _ _ Hl).
Qed.

Lemma X1_stats_iff_fulfilled_witness :
  let t := events (snd (run Samples.empty_forum_site 5 Samples.small_forum)) in
  (EStats ∈ t
   <-> fst (run Samples.empty_forum_site 5 Samples.small_forum) = Fulfilled)
  /\ (fst (run Samples.empty_forum_site 5 Samples.small_forum) = Fulfilled ->
      exists t', t = t' ++ [EStats] /\ EStats ∉ t').
Proof.
  apply (X1_stats_iff_fulfilled Samples.empty_forum_site 5 Samples.small_forum).
  apply lin_events.
Defined.

(** ** How far a traversal goes, by its pages *)

Lemma ends_at_at_page (W : World) (this : page_obj) (n : Z) :
  ends_at W this n -> ends_at W (at_page this n) n.
Proof. intros (doc & ? & ? & ?). by exists doc. Qed.

(** X2.  A traversal whose pages [p], ..., [n - 1] load, have their items
    archived and show an indicator other than their number, and whose page
    [n] loads and ends it, requests exactly the pages [p] to [n] in every
    schedule, given [n - p + 1] or more steps; the traversal of a forum is
    then fulfilled.  Page numbers are from 1 to [2 ^ 53]. *)
Theorem X2_traversal_completes (W : World) (this : page_obj) (p n : Z)
    (extra : nat) (t : list event) :
  cls this = XFForum \/ cls this = XFThread ->
  page this = Some p ->
  1 <= p <= n -> n <= two53 ->
  (forall k, p <= k < n -> continues W this k) ->
  ends_at W this n ->
  lin (snd (call_archive W (Z.to_nat (n - p) + S extra) this)) t ->
  fetched_pages (cls this) t = Some <$> seqZ p (n - p + 1)
  /\ (cls this = XFForum ->
      fst (call_archive W (Z.to_nat (n - p) + S extra) this) = Fulfilled).
Proof.
  intros Hc Hp Hpn Hb Hk Hend Hl.
  rewrite (fetched_pages_any_schedule W _ this p t Hc Hp Hl).
  destruct (pages_run W (Z.to_nat (n - p)) (S extra) this p Hc Hp)
    as [Hpages Hout]; [lia|lia|..].
  { intros k Hr. apply Hk. lia. }
  replace (p + Z.of_nat (Z.to_nat (n - p))) with n in * by lia.
  destruct (step_ends W extra (at_page this n) n Hc eq_refl
              (ends_at_at_page W this n Hend)) as [Hlast Hful].
  change (cls (at_page this n)) with (cls this) in *.
  split.
  - rewrite Hpages, Hlast, Z2Nat.id by lia.
    rewrite (seqZ_app p (n - p) 1), fmap_app by lia.
    by replace (p + (n - p)) with n by lia.
  - intros Hf. apply settle_Fulfilled. by rewrite (Hout Hf), (Hful Hf).
Qed.

(** The small thread: two posts on page 1, one on page 2. *)
Lemma X2_traversal_completes_witness :
  let t :=
    events (snd (call_archive Samples.small_site 5 Samples.small_thread)) in
  fetched_pages XFThread t = Some <$> seqZ 1 2
  /\ (XFThread = XFForum ->
      fst (call_archive Samples.small_site 5 Samples.small_thread)
      = Fulfilled).
Proof.
  apply (X2_traversal_completes Samples.small_site Samples.small_thread
           1 2 3).
  - right. reflexivity.
  - reflexivity.
  - lia.
  - by vm_compute.
  - intros k Hk. assert (k = 1) as -> by lia.
    exists Samples.first_page. split; [reflexivity|].
    split; [discriminate|]. split; [discriminate|].
    intros archive. vm_compute. reflexivity.
  - exists (Samples.thread_page [Samples.msg_noon] (JNum 2)).
    split; [reflexivity|]. split; [reflexivity|].
    intros archive. vm_compute. reflexivity.
  - apply lin_events.
Defined.

(** X3.  When the request of page [n] fails after the pages [p], ...,
    [n - 1] sent the traversal on, the traversal has requested exactly the
    pages [p] to [n], each once: the failed request is not repeated.  The
    traversal of a forum is rejected with the fetch error.  Page numbers
    are from 1 to [2 ^ 53]. *)
Theorem X3_fetch_error_stops (W : World) (this : page_obj) (p n : Z)
    (extra : nat) (t : list event) :
  cls this = XFForum \/ cls this = XFThread ->
  page this = Some p ->
  1 <= p <= n -> n <= two53 ->
  (forall k, p <= k < n -> continues W this k) ->
  web W (load_url (at_page this n)) = None ->
  lin (snd (call_archive W (Z.to_nat (n - p) + S extra) this)) t ->
  fetched_pages (cls this) t = Some <$> seqZ p (n - p + 1)
  /\ (cls this = XFForum ->
      fst (call_archive W (Z.to_nat (n - p) + S extra) this)
      = Rejected FetchError).
Proof.
  intros Hc Hp Hpn Hb Hk Hfail Hl.
  rewrite (fetched_pages_any_schedule W _ this p t Hc Hp Hl).
  destruct (pages_run W (Z.to_nat (n - p)) (S extra) this p Hc Hp)
    as [Hpages Hout]; [lia|lia|..].
  { intros k Hr. apply Hk. lia. }
  replace (p + Z.of_nat (Z.to_nat (n - p))) with n in * by lia.
  destruct (step_fails W extra (at_page this n) n Hc eq_refl Hfail)
    as [Hlast Hrej].
  change (cls (at_page this n)) with (cls this) in *.
  split.
  - rewrite Hpages, Hlast, Z2Nat.id by lia.
    rewrite (seqZ_app p (n - p) 1), fmap_app by lia.
    by replace (p + (n - p)) with n by lia.
  - intros Hf. specialize (Hout Hf). rewrite (Hrej Hf) in Hout.
    pose proof (call_archive_forum_not_thrown W
                  (Z.to_nat (n - p) + S extra) this) as Hnt.
    destruct (fst (call_archive W (Z.to_nat (n - p) + S extra) this));
      simpl in Hout; try done. by destruct (Hnt e).
Qed.

(** The small thread with its second page out of reach, and the forum
    without threads with its third page out of reach. *)
Lemma X3_fetch_error_stops_witness :
  (let t :=
     events (snd (call_archive Samples.truncated_thread_site 4
                    Samples.small_thread)) in
   fetched_pages XFThread t = Some <$> seqZ 1 2
   /\ (XFThread = XFForum ->
       fst (call_archive Samples.truncated_thread_site 4 Samples.small_thread)
       = Rejected FetchError))
  /\ (let t :=
        events (snd (call_archive Samples.truncated_forum_site 4
                       Samples.small_forum)) in
      fetched_pages XFForum t = Some <$> seqZ 1 3
      /\ (XFForum = XFForum ->
          fst (call_archive Samples.truncated_forum_site 4 Samples.small_forum)
          = Rejected FetchError)).
Proof.
  split.
  - apply (X3_fetch_error_stops Samples.truncated_thread_site
             Samples.small_thread 1 2 2).
    + right. reflexivity.
    + reflexivity.
    + lia.
    + by vm_compute.
    + intros k Hk. assert (k = 1) as -> by lia.
      exists Samples.first_page. split; [reflexivity|].
      split; [discriminate|]. split; [discriminate|].
      intros archive. vm_compute. reflexivity.
    + reflexivity.
    + apply lin_events.
  - apply (X3_fetch_error_stops Samples.truncated_forum_site
             Samples.small_forum 1 3 1).
    + left. reflexivity.
    + reflexivity.
    + lia.
    + by vm_compute.
    + intros k Hk. assert (k = 1 \/ k = 2) as [-> | ->] by lia;
        (exists (Samples.forum_page [] (JNum 3)); split; [reflexivity|];
         split; [discriminate|]; split; [discriminate|];
         intros archive; reflexivity).
    + reflexivity.
    + apply lin_events.
Defined.

(** X4.  The cursor ends only on a page whose indicator is absent or equal
    to the page number: when every page loads, has its items archived and
    shows another indicator, the traversal requests a new page at every
    step and its promise is not settled.  Page numbers are from 1 to
    [2 ^ 53]. *)
Theorem X4_no_end_past_last (W : World) (this : page_obj) (p : Z)
    (fuel : nat) (t : list event) :
  cls this = XFForum \/ cls this = XFThread ->
  page this = Some p ->
  1 <= p -> p + Z.of_nat fuel <= two53 ->
  (forall k, p <= k < p + Z.of_nat fuel -> continues W this k) ->
  lin (snd (call_archive W fuel this)) t ->
  fetched_pages (cls this) t = Some <$> seqZ p (Z.of_nat fuel)
  /\ (cls this = XFForum -> fst (call_archive W fuel this) = Pending).
Proof.
  intros Hc Hp H1 Hb Hk Hl.
  rewrite (fetched_pages_any_schedule W _ this p t Hc Hp Hl).
  destruct (pages_run W fuel 0 this p Hc Hp H1 Hb Hk) as [Hpages Hout].
  rewrite Nat.add_0_r in *. split.
  - rewrite Hpages. simpl. by rewrite app_nil_r.
  - intros Hf. apply settle_Pending. by rewrite (Hout Hf).
Qed.

(** A thread whose pages all hold a post and name page 0 as the last. *)
Lemma X4_no_end_past_last_witness :
  let t :=
    events (snd (call_archive Samples.endless_thread_site 6
                   Samples.small_thread)) in
  fetched_pages XFThread t = Some <$> seqZ 1 6
  /\ (XFThread = XFForum ->
      fst (call_archive Samples.endless_thread_site 6 Samples.small_thread)
      = Pending).
Proof.
  apply (X4_no_end_past_last Samples.endless_thread_site Samples.small_thread
           1 6).
  - right. reflexivity.
  - reflexivity.
  - lia.
  - by vm_compute.
  - intros k Hk.
    exists (Samples.thread_page [Samples.msg_afternoon] (JNum 0)).
    split; [reflexivity|]. split; [discriminate|].
    split; [intros [= H]; lia|].
    intros archive. vm_compute. reflexivity.
  - apply lin_events.
Defined.

(** ** A forum page that lists threads *)

Lemma constructed_app (c : class) (t1 t2 : list event) :
  constructed c (t1 ++ t2) = (constructed c t1 + constructed c t2)%nat.
Proof. unfold constructed. by rewrite filter_app, length_app. Qed.

Lemma constructed_perm (c : class) (t t' : list event) :
  t ≡ₚ t' -> constructed c t = constructed c t'.
Proof. unfold constructed. by intros ->. Qed.

Lemma constructed_news {A : Type} (c : class) (l : list A) :
  constructed c (events (seq_all ((fun _ => AEv (ENew c)) <$> l))) = length l.
Proof.
  induction l as [|x l IH]; [done|]. cbn [fmap list_fmap seq_all events].
  rewrite constructed_app, IH. unfold constructed. cbn.
  by rewrite decide_True.
Qed.

Lemma constructed_none (c : class) (t : list event) :
  Forall (fun e => e <> ENew c) t -> constructed c t = 0%nat.
Proof.
  unfold constructed. induction 1 as [|e t He _ IH]; [done|].
  rewrite filter_cons. by rewrite decide_False.
Qed.

Lemma thread_events_no_thread (t : list event) :
  Forall thread_event t -> Forall (fun e => e <> ENew XFThread) t.
Proof.
  intros H. eapply Forall_impl; [exact H|].
  intros [] He; simpl in *; try done. by subst.
Qed.

(** X5.  A forum page that lists at least one thread ends the forum
    traversal: all its threads are constructed, the archival of the first
    one throws for want of [_persistData], the promise of the forum is
    rejected with that error, and the forum requests no further page. *)
Theorem X5_forum_page_with_threads (W : World) (fuel : nat) (this : page_obj)
    (p : Z) (doc : document) (l : thread_link) (ls : list thread_link)
    (t : list event) :
  cls this = XFForum ->
  page this = Some p ->
  web W (load_url this) = Some doc ->
  thread_links doc = l :: ls ->
  lin (snd (call_archive W (S (S fuel)) this)) t ->
  fst (call_archive W (S (S fuel)) this)
  = Rejected (TypeError "Cannot call method 'bind' of undefined")
  /\ fetched_pages XFForum t = [Some p]
  /\ constructed XFThread t = length (thread_links doc).
Proof.
  intros Hc Hp Hweb Hlinks Hl.
  assert (exists a,
             XFForum_scrape W (call_archive W (S fuel)) this doc
             = (Rejected (TypeError "Cannot call method 'bind' of undefined"),
                set_page this (next_page (page this) (pagenav_last doc)),
                ASeq (seq_all ((fun _ => AEv (ENew XFThread))
                                 <$> forum_threads this doc)) a)
             /\ Forall thread_event (events a)) as (a & Hs & Ha).
  { unfold XFForum_scrape, BPromise_map, forum_threads. rewrite Hlinks.
    cbn [fmap list_fmap visit XFPage__archiveItem].
    set (o := XFPage_new XFThread _ _ _ _ _).
    assert (cls o = XFThread) as Ho by done.
    change (call_archive W (S fuel) o)
      with (archive_body W (call_archive W fuel) o).
    rewrite (archive_body_thread W _ o Ho). cbn [fst snd fmap list_fmap foldr].
    eexists. split; [reflexivity|]. cbn [par_all events].
    rewrite app_nil_r. apply XFPage_archive_thread_events; [|done].
    intros o' Ho'. by apply call_archive_thread_events. }
  assert (call_archive W (S (S fuel)) this
          = (Rejected (TypeError "Cannot call method 'bind' of undefined"),
             ASeq (AEv (ELog XFForum (url this) (Some p)))
               (ASeq (AEv (EGet XFForum (Some p) (load_url this)))
                  (ASeq (seq_all ((fun _ => AEv (ENew XFThread))
                                    <$> forum_threads this doc)) a))))
    as Hcall.
  { rewrite call_archive_S_forum by done.
    unfold XFPage_archive, XFPage_load, XFPage__onLoad.
    rewrite Hweb, call_scrape_forum, Hs, Hc, Hp by done. reflexivity. }
  split; [by rewrite Hcall|].
  rewrite Hcall in Hl. cbn [snd] in Hl. split.
  - rewrite <- Hc.
    rewrite (fetched_pages_any_schedule W (S (S fuel)) this p t); auto.
    rewrite Hcall, Hc. cbn [snd events].
    rewrite !fetched_pages_app, fetched_pages_get.
    rewrite (fetched_pages_none XFForum (events (seq_all _)))
      by (by apply news_events).
    rewrite (fetched_pages_none XFForum (events a)); [done|].
    eapply Forall_impl; [exact Ha|].
    intros [c ? ?|c ? ?| | |] He; simpl in *; try done; by subst c.
    by rewrite Hcall.
  - rewrite (constructed_perm _ _ _ (lin_perm _ _ Hl)). cbn [events].
    rewrite !constructed_app, constructed_news.
    rewrite (constructed_none _ (events a))
      by (by apply thread_events_no_thread).
    unfold forum_threads. rewrite length_fmap. unfold constructed. cbn.
    rewrite !decide_False by done. simpl. lia.
Qed.

Lemma X5_forum_page_with_threads_witness :
  let t :=
    events (snd (call_archive Samples.small_site 5 Samples.small_forum)) in
  fst (call_archive Samples.small_site 5 Samples.small_forum)
  = Rejected (TypeError "Cannot call method 'bind' of undefined")
  /\ fetched_pages XFForum t = [Some 1]
  /\ constructed XFThread t = 1%nat.
Proof.
  apply (X5_forum_page_with_threads Samples.small_site 3 Samples.small_forum 1
           (Samples.forum_page
              [ {| href := Some "threads/t.1/"; link_text := "T" |} ]
              JUndefined)
           {| href := Some "threads/t.1/"; link_text := "T" |} []).
  - reflexivity.
  - reflexivity.
  - reflexivity.
  - reflexivity.
  - apply lin_events.
Defined.

(** ** The rows of a thread page *)

(** X6.  On a thread page whose messages can all be read, [scrape]
    constructs one post per message and then runs one statement per
    message, each time [INSERT INTO threads] with the title of the thread
    and an undefined url; it is fulfilled when the page has no message or
    the statement succeeds, and rejected with the write error otherwise. *)
Theorem X6_thread_page_rows (W : World) (archive : page_obj -> outcome * act)
    (this : page_obj) (doc : document) (datas : list post_data) :
  db this = JDb ->
  extract_all W (messages doc) = inr datas ->
  fst (fst (XFThread_scrape W archive this doc))
  = (if decide (messages doc = []) then Fulfilled
     else if db_run W sql_threads (thread_row this) then Fulfilled
          else Rejected PersistError)
  /\ events (snd (XFThread_scrape W archive this doc))
     = replicate (length (messages doc)) (ENew XFPost)
       ++ replicate (length (messages doc))
            (ERun sql_threads (thread_row this))
  /\ thread_row this !! "$url" = Some JUndefined
  /\ thread_row this !! "$title" = Some (title this).
Proof.
  intros Hdb Hall.
  destruct (XFThread_scrape_readable W archive this doc datas Hdb Hall)
    as (Hr & _ & Hev).
  split; [|split; [done|split; reflexivity]].
  rewrite Hr. destruct (messages doc); by case_decide.
Qed.

Lemma X6_thread_page_rows_witness :
  fst (fst Samples.first_page_scrape) = Fulfilled
  /\ events (snd Samples.first_page_scrape)
     = replicate 2 (ENew XFPost)
       ++ replicate 2 (ERun sql_threads (thread_row Samples.small_thread))
  /\ thread_row Samples.small_thread !! "$url" = Some JUndefined
  /\ thread_row Samples.small_thread !! "$title" = Some (JStr "T").
Proof.
  apply (X6_thread_page_rows Samples.small_site
           (call_archive Samples.small_site 2) Samples.small_thread
           Samples.first_page
           (default [] (match extract_all Samples.small_site
                                [Samples.msg_afternoon; Samples.msg_morning]
                        with inr ds => Some ds | inl _ => None end))).
  - reflexivity.
  - vm_compute. reflexivity.
Defined.

(** X7.  When the database refuses the statement, a thread page with a
    message rejects its cycle with the write error after all its posts have
    been tried, and the thread requests no further page, whatever its
    indicator says: the write is not retried and the traversal does not go
    on without it. *)
Theorem X7_write_error_stops_thread (W : World) (fuel : nat)
    (this : page_obj) (p : Z) (doc : document) (datas : list post_data)
    (t : list event) :
  cls this = XFThread ->
  db this = JDb ->
  page this = Some p ->
  web W (load_url this) = Some doc ->
  extract_all W (messages doc) = inr datas ->
  messages doc <> [] ->
  db_run W sql_threads (thread_row this) = false ->
  lin (snd (call_archive W (S fuel) this)) t ->
  fst (XFPage_archive W (call_archive W fuel) this) = Rejected PersistError
  /\ fetched_pages XFThread t = [Some p]
  /\ length (filter (fun e => is_run e = true) t) = length (messages doc).
Proof.
  intros Hc Hdb Hp Hweb Hall Hne Hrun Hl.
  destruct (XFThread_scrape_readable W (call_archive W fuel) this doc datas
              Hdb Hall) as (Hr & Hobj & Hev).
  cbv zeta in Hr. rewrite Hrun in Hr.
  destruct (XFThread_scrape W (call_archive W fuel) this doc)
    as [[r this'] a] eqn:Hs.
  cbn [fst snd] in Hr, Hobj, Hev.
  assert (r = Rejected PersistError) as ->.
  { rewrite Hr. by destruct (messages doc). }
  assert (XFPage_archive W (call_archive W fuel) this
          = (Rejected PersistError,
             ASeq (AEv (ELog XFThread (url this) (Some p)))
               (ASeq (AEv (EGet XFThread (Some p) (load_url this))) a)))
    as Harch.
  { unfold XFPage_archive, XFPage_load, XFPage__onLoad.
    rewrite Hweb, call_scrape_thread, Hs, Hc, Hp by done. reflexivity. }
  split; [by rewrite Harch|].
  assert (snd (call_archive W (S fuel) this)
          = ASeq (AEv (ELog XFThread (url this) (Some p)))
              (ASeq (AEv (EGet XFThread (Some p) (load_url this))) a)) as Hact.
  { rewrite call_archive_S_act by auto. by rewrite Harch. }
  split.
  - rewrite <- Hc.
    rewrite (fetched_pages_any_schedule W (S fuel) this p t) by auto.
    rewrite Hact, Hc. cbn [events].
    rewrite !fetched_pages_app, fetched_pages_get, Hev.
    rewrite (fetched_pages_none XFThread (replicate _ _ ++ replicate _ _));
      [done|].
    apply Forall_app. split; apply Forall_replicate; done.
  - rewrite Hact in Hl. rewrite (lin_perm _ _ Hl). cbn [events].
    rewrite Hev, !filter_app, !length_app. cbn.
    assert (forall n, filter (fun e => is_run e = true)
                        (replicate n (ENew XFPost)) = []) as ->.
    { induction n as [|n IH]; [done|]. simpl. by rewrite filter_cons, IH. }
    assert (forall n ps, filter (fun e => is_run e = true)
                           (replicate n (ERun sql_threads ps))
                         = replicate n (ERun sql_threads ps)) as ->.
    { induction n as [|n IH]; intros ps; [done|]. simpl.
      by rewrite filter_cons, IH. }
    rewrite length_replicate, !decide_False by done. simpl. lia.
Qed.

Lemma X7_write_error_stops_thread_witness :
  let t :=
    events (snd (call_archive Samples.refusing_site 4 Samples.small_thread)) in
  fst (XFPage_archive Samples.refusing_site
         (call_archive Samples.refusing_site 3) Samples.small_thread)
  = Rejected PersistError
  /\ fetched_pages XFThread t = [Some 1]
  /\ length (filter (fun e => is_run e = true) t) = 2%nat.
Proof.
  apply (X7_write_error_stops_thread Samples.refusing_site 3
           Samples.small_thread 1 Samples.first_page
           (default [] (match extract_all Samples.refusing_site
                                [Samples.msg_afternoon; Samples.msg_morning]
                        with inr ds => Some ds | inl _ => None end))).
  - reflexivity.
  - reflexivity.
  - reflexivity.
  - reflexivity.
  - vm_compute. reflexivity.
  - discriminate.
  - reflexivity.
  - apply lin_events.
Defined.

(** ** The time value of a post *)



(** ** Reading a written time *)

Section Written.

Local Open Scope string_scope.



End Written.



(** ** A date that cannot be read *)

(** X10.  A date part that is not a date does not stop the scrape: the
    message is extracted with an invalid date, and its post is archived
    like any other, because the statement that runs does not read the
    date; the statement of line 185 would throw a [RangeError] on it. *)
Theorem X10_invalid_date_tolerated (W : World) (m : message)
    (datePart : jsval) (timePart h mi w : string) :
  date_part m = Some datePart ->
  new_Date W datePart = None ->
  time_part m = Some timePart ->
  match_time timePart = Some (h, mi, w) ->
  exists d,
    extract_message W m = inr d
    /\ date d = None
    /\ (forall archive this,
          XFPage__archiveItem W archive (ItemPost (make_post this d))
          = runAsync W (db this) sql_threads (thread_row this))
    /\ (forall this,
          db this = JDb ->
          XFPost__persistData_183 W (prop (make_post this d))
          = (Thrown (RangeError "Invalid time value"), ANil)).
Proof.
  unfold date_part, time_part.
  destruct (raw_date m) as [e|rawDate] eqn:Hraw; [done|].
  intros [= <-] Ht0. destruct (index rawDate 1) eqn:Htime; try done.
  intros [= ->] Hmatch.
  destruct (extract_message_date W m rawDate timePart h mi w)
    as (d & Hd & Hdate); [done..|].
  rewrite Ht0 in Hdate. cbn [setHours setMinutes] in Hdate.
  exists d. split; [done|]. split; [done|]. split.
  - intros archive this. apply XFPost_archive_row.
  - intros this Hdb. unfold XFPost__persistData_183.
    change (prop (make_post this d) "db") with (db this).
    change (prop (make_post this d) "date") with (JDate (date d)).
    by rewrite Hdb, Hdate.
Qed.

Lemma X10_invalid_date_tolerated_witness :
  exists d,
    extract_message Samples.small_site Samples.msg_undated = inr d
    /\ date d = None
    /\ (forall archive this,
          XFPage__archiveItem Samples.small_site archive
            (ItemPost (make_post this d))
          = runAsync Samples.small_site (db this) sql_threads (thread_row this))
    /\ (forall this,
          db this = JDb ->
          XFPost__persistData_183 Samples.small_site (prop (make_post this d))
          = (Thrown (RangeError "Invalid time value"), ANil)).
Proof.
  apply (X10_invalid_date_tolerated Samples.small_site Samples.msg_undated
           (JStr "someday") "2:30 PM" "2" "30" "PM");
    reflexivity.
Defined.

(** ** Where the date is read from *)

Section Split.

Local Open Scope string_scope.

Lemma occurs_false (sep s : string) :
  occurs sep s = false ->
  strip_prefix sep s = None
  /\ match s with String _ s' => occurs sep s' = false | "" => True end.
Proof.
  destruct s as [|c s]; simpl; destruct (strip_prefix sep _); done.
Qed.

Lemma split_go_absent (sep : string) (fuel : nat) (s cur : string) :
  (String.length s <= fuel)%nat ->
  occurs sep s = false ->
  split_go sep fuel s cur = [String.rev_app cur s].
Proof.
  revert s cur. induction fuel as [|fuel IH]; intros s cur Hlen Hocc.
  - destruct s; [done|]. simpl in Hlen. lia.
  - destruct s as [|c s]; [done|].
    destruct (occurs_false _ _ Hocc) as [Hstrip Hrest].
    cbn [split_go]. rewrite Hstrip.
    rewrite IH; [done| |done]. simpl in Hlen. lia.
Qed.

(** Without the separator there is one piece, the whole string. *)
Lemma split_absent (sep s : string) :
  occurs sep s = false -> split sep s = [s].
Proof. intros H. unfold split. by rewrite split_go_absent. Qed.

End Split.

(** X11.  The date of a message is read from the two data attributes when
    [datestring] is truthy, and then the title is not looked at; otherwise
    it is read from the title.  Reading throws a [TypeError], and the
    message is not extracted, when the time attribute is not a string, when
    there is neither a truthy [datestring] nor a title, and when the title
    holds no " at ". *)
Theorem X11_date_source (W : World) (m : message) :
  (truthy (data_datestring m) = true ->
   date_part m = Some (data_datestring m)
   /\ time_part m = match data_timestring m with
                    | JStr s => Some s
                    | _ => None
                    end
   /\ (time_part m = None ->
       extract_message W m = inl (TypeError "rawDate[1].match")))
  /\ (truthy (data_datestring m) = false ->
      datetime_title m = None ->
      extract_message W m
      = inl (TypeError "Cannot call method 'split' of undefined"))
  /\ (forall ttl,
        truthy (data_datestring m) = false ->
        datetime_title m = Some ttl ->
        occurs " at " ttl = false ->
        date_part m = Some (JStr ttl)
        /\ extract_message W m = inl (TypeError "rawDate[1].match")).
Proof.
  split; [|split].
  - intros H. split; [|split].
    + unfold date_part, raw_date. by rewrite H.
    + unfold time_part, raw_date. rewrite H.
      by destruct (data_timestring m).
    + unfold time_part, extract_message, normalize_date, raw_date.
      rewrite H. change (index [data_datestring m; data_timestring m] 1)
        with (data_timestring m).
      by destruct (data_timestring m).
  - intros H H0. unfold extract_message, raw_date. by rewrite H, H0.
  - intros ttl H H0 Habs. split.
    + unfold date_part, raw_date. by rewrite H, H0, split_absent.
    + unfold extract_message, normalize_date, raw_date.
      by rewrite H, H0, split_absent.
Qed.

Lemma X11_date_source_witness :
  (date_part Samples.msg_data = Some (JStr "January 5, 2015")
   /\ time_part Samples.msg_data = Some "9:05 PM")
  /\ extract_message Samples.small_site
       (Samples.message_at "" "1" "#1")
     = inl (TypeError "rawDate[1].match")
  /\ extract_message Samples.small_site Samples.msg_unsplit
     = inl (TypeError "rawDate[1].match").
Proof.
  split; [|split].
  - destruct (proj1 (X11_date_source Samples.small_site Samples.msg_data)
                eq_refl) as (H1 & H2 & _).
    split; [exact H1 | exact H2].
  - exact (proj2 (proj2 (proj2 (X11_date_source Samples.small_site
                                  (Samples.message_at "" "1" "#1")))
                    "" eq_refl eq_refl eq_refl)).
  - exact (proj2 (proj2 (proj2 (X11_date_source Samples.small_site
                                  Samples.msg_unsplit))
                    "Yesterday, 2:30 PM" eq_refl eq_refl eq_refl)).
Defined.

(** ** The number of a post *)

Section Number.

Local Open Scope string_scope.

Lemma remove_first_hash_go (x : N) (s : string) :
  remove_first "#" (pretty_N_go x s) = pretty_N_go x (remove_first "#" s).
Proof.
  revert s. induction (N.lt_wf_0 x) as [x _ IH]. intros s.
  destruct (decide (x = 0%N)) as [-> | Hx].
  - by rewrite !pretty_N_go_0.
  - rewrite (pretty_N_go_step x s), (pretty_N_go_step x (remove_first "#" s))
      by lia.
    rewrite IH by (apply N.div_lt; lia). f_equal. simpl.
    unfold pretty_N_char. by repeat case_match.
Qed.

Lemma remove_first_hash_pretty (z : Z) :
  remove_first "#" (pretty z) = pretty z.
Proof.
  assert (forall n : N, remove_first "#" (pretty n) = pretty n) as HN.
  { intros n. unfold pretty, pretty_N. case_decide; [done|].
    by rewrite remove_first_hash_go. }
  destruct z as [|p|p]; [done|apply (HN (N.pos p))|].
  change (pretty (Z.neg p)) with (String "-" (pretty (N.pos p))).
  simpl. f_equal. apply HN.
Qed.

Lemma remove_first_hash_spaces (ws s : string) :
  skip_space ws = "" ->
  remove_first "#" (ws ++ s) = ws ++ remove_first "#" s.
Proof.
  induction ws as [|c ws IH]; [done|].
  change (String c ws ++ s) with (String c (ws ++ s)).
  change (String c ws ++ remove_first "#" s)
    with (String c (ws ++ remove_first "#" s)).
  simpl. destruct (is_js_space c) eqn:Hc; [|done]. intros Hws.
  destruct (Ascii.eqb_spec c "#") as [->|_]; [done|]. by rewrite IH.
Qed.

Lemma parseInt10_string_spaces (ws s : string) :
  skip_space ws = "" ->
  parseInt10_string (ws ++ s) = parseInt10_string s.
Proof.
  intros Hws. unfold parseInt10_string. by rewrite skip_space_app.
Qed.

End Number.

(** X12.  The number of a post is read from its label by dropping the
    first "#" and calling [parseInt]: a label "#N" or "N", with N the
    numeral of an integer up to [2 ^ 53] and with or without white space
    before it, gives N, and a label that is empty or only "#" gives
    [NaN]. *)
Theorem X12_post_number (m : message) (z : Z) :
  Z.abs z <= two53 ->
  (forall ws : string,
      skip_space ws = "" ->
      (postNumber_text m = (ws ++ String "#" (pretty z))%string ->
       extract_number m = JNum z)
      /\ (postNumber_text m = (ws ++ pretty z)%string ->
          extract_number m = JNum z))
  /\ (postNumber_text m = "" \/ postNumber_text m = "#" ->
      extract_number m = JNaN).
Proof.
  intros Hz. unfold extract_number, parseInt10, ToString. split.
  - intros ws Hws. split; intros ->.
    + rewrite remove_first_hash_spaces by done. simpl remove_first.
      rewrite parseInt10_string_spaces by done.
      by apply parseInt10_pretty_exact.
    + rewrite remove_first_hash_spaces, remove_first_hash_pretty by done.
      rewrite parseInt10_string_spaces by done.
      by apply parseInt10_pretty_exact.
  - by intros [-> | ->].
Qed.

Lemma X12_post_number_witness :
  extract_number (Samples.message_at "January 5, 2015 at 2:30 PM" "1" "#12")
  = JNum 12
  /\ extract_number (Samples.message_at "January 5, 2015 at 2:30 PM" "1" " #12")
     = JNum 12
  /\ extract_number (Samples.message_at "January 5, 2015 at 2:30 PM" "1" "12")
     = JNum 12
  /\ extract_number (Samples.message_at "January 5, 2015 at 2:30 PM" "1" "#")
     = JNaN.
Proof.
  split; [|split; [|split]].
  - refine (proj1 (proj1 (X12_post_number
                    (Samples.message_at "January 5, 2015 at 2:30 PM" "1" "#12")
                    12 _) "" eq_refl) eq_refl).
    by vm_compute.
  - refine (proj1 (proj1 (X12_post_number
                    (Samples.message_at "January 5, 2015 at 2:30 PM" "1" " #12")
                    12 _) " " eq_refl) eq_refl).
    by vm_compute.
  - refine (proj2 (proj1 (X12_post_number
                    (Samples.message_at "January 5, 2015 at 2:30 PM" "1" "12")
                    12 _) "" eq_refl) eq_refl).
    by vm_compute.
  - refine (proj2 (X12_post_number
                    (Samples.message_at "January 5, 2015 at 2:30 PM" "1" "#")
                    0 _) (or_intror eq_refl)).
    by vm_compute.
Defined.

(** ** The statement of line 185 *)

(** X13.  The function first assigned to [XFPost.prototype._persistData],
    applied to a post that [scrape] built from a message with a valid
    date, inserts into [posts] the title and the url of the thread, the
    body, the date as [toISOString] gives it, the guid, the author and the
    likes, and binds [$num] to [undefined]; the promise is that of the
    database. *)
Theorem X13_line_183_row (W : World) (this : page_obj) (data : post_data)
    (t : Z) :
  db this = JDb ->
  date data = Some t ->
  XFPost__persistData_183 W (prop (make_post this data))
  = runAsync W JDb sql_posts
      (list_to_map
         [ ("$title", title this);
           ("$desc", content data);
           ("$date", JStr (toISOString W t));
           ("$link", JStr (url this));
           ("$guid", JStr (baseUrl this ++ ToString (permalink data))%string);
           ("$author", author data);
           ("$num", JUndefined);
           ("$likes", likes data) ]).
Proof.
  intros Hdb Ht. unfold XFPost__persistData_183.
  change (prop (make_post this data) "db") with (db this).
  change (prop (make_post this data) "date") with (JDate (date data)).
  rewrite Hdb, Ht. reflexivity.
Qed.

Lemma X13_line_183_row_witness :
  exists data,
    extract_message Samples.small_site Samples.msg_data = inr data
    /\ XFPost__persistData_183 Samples.small_site
         (prop (make_post Samples.small_thread data))
       = runAsync Samples.small_site JDb sql_posts
           (list_to_map
              [ ("$title", JStr "T");
                ("$desc", JNull);
                ("$date", JStr (pretty (Samples.jan5 + 21 * msPerHour
                                        + 5 * msPerMinute)));
                ("$link", JStr (Samples.base ++ "threads/t.1/")%string);
                ("$guid", JStr (Samples.base ++ "posts/7/")%string);
                ("$author", JStr "bob");
                ("$num", JUndefined);
                ("$likes", JNum 2) ]).
Proof.
  eexists. split; [reflexivity|].
  apply (X13_line_183_row Samples.small_site Samples.small_thread);
    reflexivity.
Defined.

(** ** The threads of a forum page *)

(** X14.  [XFForum#scrape] makes one thread per link, in the order of the
    page; each starts at page 1 with the database of the forum and the text
    of its link as title, and its first request goes to the base URL
    followed by the [href] of the link, without a page suffix; a link
    without [href] gives the base URL followed by "undefined". *)
Theorem X14_discovered_threads (this : page_obj) (doc : document) :
  length (forum_threads this doc) = length (thread_links doc)
  /\ forall i l,
       thread_links doc !! i = Some l ->
       exists o,
         forum_threads this doc !! i = Some o
         /\ cls o = XFThread
         /\ page o = Some 1
         /\ db o = db this
         /\ title o = JStr (link_text l)
         /\ load_url o
            = (baseUrl this
               ++ match href l with Some h => h | None => "undefined" end
              )%string.
Proof.
  unfold forum_threads. split; [by rewrite length_fmap|].
  intros i l Hl. eexists. rewrite list_lookup_fmap, Hl.
  split; [reflexivity|]. repeat split. by destruct (href l).
Qed.

Lemma X14_discovered_threads_witness :
  exists o,
    forum_threads Samples.small_forum
      (Samples.forum_page
         [ {| href := Some "threads/t.1/"; link_text := "T" |};
           {| href := None; link_text := "U" |} ] JUndefined) !! 1%nat
    = Some o
    /\ cls o = XFThread
    /\ page o = Some 1
    /\ db o = JDb
    /\ title o = JStr "U"
    /\ load_url o = (Samples.base ++ "undefined")%string.
Proof.
  apply (proj2 (X14_discovered_threads Samples.small_forum
                  (Samples.forum_page
                     [ {| href := Some "threads/t.1/"; link_text := "T" |};
                       {| href := None; link_text := "U" |} ] JUndefined))
           1%nat {| href := None; link_text := "U" |}).
  reflexivity.
Defined.

(** ** What the run stores *)

Lemma thread_event_row (e : event) (sql : string) (params : gmap string jsval) :
  thread_event e -> e = ERun sql params ->
  sql = sql_threads /\ params !! "$url" = Some JUndefined.
Proof. intros He ->. exact He. Qed.

(** The statements of a forum or thread traversal are those of the posts. *)
Lemma call_archive_rows (W : World) (fuel : nat) (this : page_obj) :
  cls this = XFForum \/ cls this = XFThread ->
  Forall (fun e => forall sql params,
            e = ERun sql params ->
            sql = sql_threads /\ params !! "$url" = Some JUndefined)
    (events (snd (call_archive W fuel this))).
Proof.
  intros [Hc|Hc].
  2:{ eapply Forall_impl; [by apply call_archive_thread_events|].
      intros e He sql params. by apply thread_event_row. }
  revert this Hc. induction fuel as [|n IH]; intros this Hc; [constructor|].
  rewrite call_archive_S_act, XFPage_archive_act by auto. cbv zeta.
  destruct (web W (load_url this)) as [doc|].
  2:{ simpl. by repeat constructor. }
  rewrite call_scrape_forum by done.
  pose proof (XFForum_scrape_state W (call_archive W n) this doc)
    as (Hcls & _ & _).
  assert (Forall (fun e => forall sql params,
                    e = ERun sql params ->
                    sql = sql_threads /\ params !! "$url" = Some JUndefined)
            (events (snd (XFForum_scrape W (call_archive W n) this doc))))
    as Hs.
  { unfold XFForum_scrape, BPromise_map. cbn [snd events].
    apply Forall_app. split; [by apply news_events|].
    apply par_all_Forall_events.
    apply (visit_Forall (fun a => Forall _ (events a))).
    intros x (o & -> & [Ho _]%forum_threads_class)%list_elem_of_fmap.
    simpl. eapply Forall_impl; [by apply call_archive_thread_events|].
    intros e He sql params. by apply thread_event_row. }
  destruct (XFForum_scrape W (call_archive W n) this doc) as [[r this'] a].
  cbn [fst snd] in Hcls, Hs.
  assert (Forall (fun e => forall sql params,
                    e = ERun sql params ->
                    sql = sql_threads /\ params !! "$url" = Some JUndefined)
            (events (snd (XFPage__archiveNextPage (call_archive W n) this'))))
    as Hnext.
  { unfold XFPage__archiveNextPage. destruct (page this'); [|constructor].
    apply IH. congruence. }
  destruct (settle r); cbn [events]; rewrite ?Forall_app;
    repeat split; try done; by repeat constructor.
Qed.

(** X15.  Whatever the site, a run on a forum never inserts into [posts]:
    in every schedule the statements are the two [CREATE TABLE]s and
    insertions into [threads], and each of these insertions has an
    undefined url. *)
Theorem X15_run_never_stores_a_post (W : World) (fuel : nat)
    (root : page_obj) (t : list event) (sql : string)
    (params : gmap string jsval) :
  cls root = XFForum ->
  lin (snd (run W fuel root)) t ->
  ERun sql params ∈ t ->
  inserts_into "posts" sql = false
  /\ (sql = sql_create_threads \/ sql = sql_create_posts
      \/ (sql = sql_threads /\ params !! "$url" = Some JUndefined)).
Proof.
  intros Hc Hl Hin. rewrite (lin_perm _ _ Hl) in Hin. clear Hl.
  assert (sql = sql_create_threads \/ sql = sql_create_posts
          \/ (sql = sql_threads /\ params !! "$url" = Some JUndefined))
    as Hsql.
  { revert Hin. unfold run. cbn [runAsync both settle].
    pose proof (call_archive_rows W fuel root (or_introl Hc)) as Hrows.
    destruct (call_archive W fuel root) as [r a]. cbn [snd] in Hrows.
    rewrite Forall_forall in Hrows.
    assert (ERun sql params ∈ events a ->
            sql = sql_create_threads \/ sql = sql_create_posts
            \/ (sql = sql_threads /\ params !! "$url" = Some JUndefined))
      as Ha by (intros Hin; right; right; by eapply Hrows).
    unfold and_then.
    destruct (db_run W sql_create_threads ∅),
      (db_run W sql_create_posts ∅); cbn [fst snd both settle];
      try (destruct r; cbn [fst snd settle]); cbn [fst snd events];
      rewrite ?elem_of_app, ?elem_of_cons, ?elem_of_nil;
      intros H; intuition (simplify_eq; auto). }
  split; [|done].
  destruct Hsql as [-> | [-> | [-> _]]]; reflexivity.
Qed.

Lemma X15_run_never_stores_a_post_witness :
  inserts_into "posts" sql_threads = false
  /\ (sql_threads = sql_create_threads \/ sql_threads = sql_create_posts
      \/ (sql_threads = sql_threads
          /\ thread_row Samples.small_thread !! "$url" = Some JUndefined)).
Proof.
  apply (X15_run_never_stores_a_post Samples.small_site 5 Samples.small_forum
           (events (snd (run Samples.small_site 5 Samples.small_forum)))
           sql_threads (thread_row Samples.small_thread)).
  - reflexivity.
  - apply lin_events.
  - vm_compute. do 10 right. left.
Defined.
